(** * icon-preview.py: a shallow embedding and its verified properties

    The program scans a directory tree for [.svg] icons, classifies each
    by a token of its file name, groups and sorts the records, and renders
    one template into one output file.  The embedding follows
    [src/icon-preview.py] function by function and keeps its names.

    Modelling conventions:
    - a Python [str] is a [string] of 8-bit characters; [str.lower] acts on
      the ASCII letters, comparison is lexicographic on character codes;
    - a raised exception is the left injection of a sum ([Py.result]);
    - the [dict] built by [get_icons] is a [gmap string (list IconDetails)];
      the literal [ICON_GROUP_MARKS], whose insertion order is observable
      through [.values()], is an association list;
    - the generator [split_by] is the list of the pieces it yields;
    - the operating system and Jinja2 are a record of functions ([World]). *)

From Equations Require Import Equations.
From Stdlib Require Import ZArith Ascii String List Sorted Permutation Lia.
From stdpp Require Import gmap strings list.

Local Open Scope string_scope.

(** ** Python built-ins used by the script *)

Module Py.

(** The exceptions that the modelled code can raise.  [OSError] and
    [TemplateError] are raised by the environment (file system, Jinja2). *)
Inductive exception : Type :=
| IndexError
| ValueError
| OSError (msg : string)
| TemplateError (msg : string).

(** A computation that returns a value or raises. *)
Definition result (A : Type) : Type := (exception + A)%type.

Definition ret {A} (a : A) : result A := inr a.
Definition raise {A} (e : exception) : result A := inl e.

Definition bind {A B} (m : result A) (k : A -> result B) : result B :=
  match m with
  | inl e => inl e
  | inr a => k a
  end.

(** [for x in l: acc = body(acc, x)], stopping at the first exception. *)
Fixpoint for_each {A S} (body : S -> A -> result S) (l : list A) (acc : S)
  : result S :=
  match l with
  | [] => ret acc
  | x :: l' => bind (body acc x) (for_each body l')
  end.

(** [l[i]] for a non-negative index. *)
Definition getitem {A} (l : list A) (i : nat) : result A :=
  match nth_error l i with
  | Some a => ret a
  | None => raise IndexError
  end.

(** [list.index]: position of the first occurrence, [ValueError] if none. *)
Fixpoint index (x : string) (l : list string) : result nat :=
  match l with
  | [] => raise ValueError
  | y :: l' => if String.eqb y x then ret 0%nat
               else bind (index x l') (fun i => ret (S i))
  end.

(** [dict.get(key, default)] on a literal dict kept in insertion order. *)
Fixpoint dict_get (d : list (string * string)) (key default : string) : string :=
  match d with
  | [] => default
  | (k, v) :: d' => if String.eqb k key then v else dict_get d' key default
  end.

(** [list(d.values())]. *)
Definition dict_values (d : list (string * string)) : list string :=
  map snd d.

(** *** Strings *)

Definition lower_char (c : ascii) : ascii :=
  let n := nat_of_ascii c in
  if (65 <=? n)%nat && (n <=? 90)%nat then ascii_of_nat (n + 32) else c.

(** [str.lower]. *)
Fixpoint lower (s : string) : string :=
  match s with
  | EmptyString => EmptyString
  | String c s' => String (lower_char c) (lower s')
  end.

(** [s.startswith(p)] and [s.endswith(p)]. *)
Definition startswith (s p : string) : bool := String.prefix p s.

Definition endswith (s p : string) : bool :=
  let n := String.length s in
  let k := String.length p in
  (k <=? n)%nat && String.eqb (String.substring (n - k) k s) p.

(** [c in s] for a one-character [c]. *)
Fixpoint contains (c : ascii) (s : string) : bool :=
  match s with
  | EmptyString => false
  | String a s' => Ascii.eqb a c || contains c s'
  end.

(** [s.split(sep)] for a one-character separator: never empty. *)
Fixpoint split (sep : ascii) (s : string) : list string :=
  match s with
  | EmptyString => [EmptyString]
  | String c s' =>
      if Ascii.eqb c sep then EmptyString :: split sep s'
      else match split sep s' with
           | [] => [String c EmptyString]
           | w :: ws => String c w :: ws
           end
  end.

(** [s.rsplit(sep, 1)] for a one-character separator: one or two parts,
    cut at the last occurrence of [sep]. *)
Fixpoint rsplit1 (sep : ascii) (s : string) : list string :=
  match s with
  | EmptyString => [EmptyString]
  | String c s' =>
      match rsplit1 sep s' with
      | [t] => if Ascii.eqb c sep then [EmptyString; t] else [String c t]
      | h :: rest => String c h :: rest
      | [] => [String c EmptyString]
      end
  end.

(** [s.rfind(c)]: the highest index of [c], or [-1]. *)
Fixpoint rfind (c : ascii) (s : string) : Z :=
  match s with
  | EmptyString => (-1)%Z
  | String a s' =>
      let r := rfind c s' in
      if (0 <=? r)%Z then (r + 1)%Z
      else if Ascii.eqb a c then 0%Z else (-1)%Z
  end.

(** The slices [s[i:]] and [s[:i]] for [0 <= i]. *)
Definition slice_from (i : nat) (s : string) : string :=
  String.substring i (String.length s - i) s.

Definition slice_to (i : nat) (s : string) : string :=
  String.substring 0 i s.

(** [s.rstrip(c)]. *)
Fixpoint rstrip (c : ascii) (s : string) : string :=
  match s with
  | EmptyString => EmptyString
  | String a s' =>
      match rstrip c s' with
      | EmptyString => if Ascii.eqb a c then EmptyString else String a EmptyString
      | t => String a t
      end
  end.

(** *** Sorting

    [sorted] and [list.sort] are stable and compare keys with [<] only.
    The model inserts each element before the first element that is not
    smaller than it; a comparison that raises aborts the sort. *)
Fixpoint insert_sorted {A} (lt : A -> A -> result bool) (x : A) (l : list A)
  : result (list A) :=
  match l with
  | [] => ret [x]
  | y :: l' =>
      bind (lt y x) (fun b =>
        if b then bind (insert_sorted lt x l') (fun r => ret (y :: r))
        else ret (x :: y :: l'))
  end.

Fixpoint sort {A} (lt : A -> A -> result bool) (l : list A) : result (list A) :=
  match l with
  | [] => ret []
  | x :: l' => bind (sort lt l') (insert_sorted lt x)
  end.

(** [sorted(l, reverse=False, key=key)] over string keys, whose [<] never
    raises. *)
Definition sorted_by_key {A} (key : A -> string) (l : list A) : result (list A) :=
  sort (fun a b => ret (String.ltb (key a) (key b))) l.

(** [functools.cmp_to_key(cmp)]: the wrapped key is smaller when [cmp]
    answers a negative number. *)
Definition cmp_to_key {A} (cmp : A -> A -> result Z) (a b : A) : result bool :=
  bind (cmp a b) (fun r => ret (r <? 0)%Z).

End Py.

Notation "'do' x <- m ; k" := (Py.bind m (fun x => k))
  (at level 10, x name, m at level 100, k at level 200, only parsing).

(** ** [os.path] on a POSIX system *)

Module PosixPath.

Definition sep : ascii := "/"%char.

(** [os.path.join(a, b)]. *)
Definition join (a b : string) : string :=
  if Py.startswith b "/" then b
  else if String.eqb a "" || Py.endswith a "/" then a ++ b
  else a ++ "/" ++ b.

(** [os.path.basename(p)]. *)
Definition basename (p : string) : string :=
  let i := Z.to_nat (Py.rfind sep p + 1) in
  Py.slice_from i p.

Definition all_sep (s : string) : bool :=
  forallb (fun c => Ascii.eqb c sep) (list_ascii_of_string s).

(** [os.path.dirname(p)]. *)
Definition dirname (p : string) : string :=
  let i := Z.to_nat (Py.rfind sep p + 1) in
  let head := Py.slice_to i p in
  if negb (String.eqb head "") && negb (all_sep head)
  then Py.rstrip sep head else head.

End PosixPath.

(** ** Module-level constants *)

(** Icons per row. *)
Definition DEFAULT_ELEMENTS_PER_ROW : nat := 3.

(** Keep group order. *)
Definition ICON_GROUP_ORDER : list string :=
  ["small"; "medium"; "large"; "cover"; "notification"].

Definition ICON_GROUP_MARKS : list (string * string) :=
  [("l", "large"); ("s", "small"); ("m", "medium");
   ("cover", "cover"); ("lock", "notification")].

Record IconDetails : Type := mkIconDetails {
  name : string;
  group : string;
  relpath : string
}.

(** ** Jinja2 filters *)

Definition inspect {A} (a : A) : {b : A | a = b} := exist _ a eq_refl.

(** [split_by(entries, length)]: [piece] holds the next [length] items of
    the iterator; the loop yields it and refills it until it comes back
    empty.  [itertools.islice] takes a non-negative count, hence [nat]
    (the parameter is [len] here, [length] being a list function). *)
Equations? split_by {A : Type} (entries : list A) (len : nat)
  : list (list A) by wf (List.length entries) lt :=
  split_by entries len with inspect (firstn len entries) => {
    | exist _ [] _ := [];
    | exist _ (x :: piece) Hpiece :=
        (x :: piece) :: split_by (skipn len entries) len }.
Proof.
  destruct len as [|n]; [discriminate|].
  destruct entries as [|e entries]; [discriminate|].
  rewrite length_skipn. simpl. lia.
Qed.

(** The call [split_by(entries)] with the default row length. *)
Definition split_by_default {A : Type} (entries : list A) : list (list A) :=
  split_by entries DEFAULT_ELEMENTS_PER_ROW.

(** Custom sort function. *)
Definition cmp_groups (a b : string) : Py.result Z :=
  do a_i <- Py.index a ICON_GROUP_ORDER;
  do b_i <- Py.index b ICON_GROUP_ORDER;
  if (b_i <? a_i)%nat then Py.ret 1%Z
  else if (a_i =? b_i)%nat then Py.ret 0%Z
  else Py.ret (-1)%Z.

(** [items.sort(key=cmp_to_key(cmp_groups)); return items]. *)
Definition icon_group_order (items : list string) : Py.result (list string) :=
  Py.sort (Py.cmp_to_key cmp_groups) items.

(** ** Group selection *)

(** The [argparse.Namespace] produced by [configure_parser().parse_args()]. *)
Record Namespace : Type := mkNamespace {
  icons : option string;
  template : option string;
  result : string;
  small : bool;
  medium : bool;
  large : bool;
  cover : bool
}.

(** [getattr(flags, group, False)] for the four names the script asks for. *)
Definition getattr_flag (flags : Namespace) (g : string) : bool :=
  if String.eqb g "small" then small flags
  else if String.eqb g "medium" then medium flags
  else if String.eqb g "large" then large flags
  else if String.eqb g "cover" then cover flags
  else false.

Definition get_groups (flags : Namespace) : list string :=
  let suggested :=
    filter (fun g => getattr_flag flags g = true)
           ["small"; "medium"; "large"; "cover"] in
  if (List.length suggested =? 0)%nat
  then Py.dict_values ICON_GROUP_MARKS else suggested.

(** ** The environment: file system, logging and Jinja2 *)

(** What the process does to the outside world, in order. *)
Inductive event : Type :=
| Log (level : nat) (msg : string) (exc_info : option Py.exception)
| MakeDirs (path : string)
| OpenForWriting (path : string)
| WriteText (path : string) (content : string).

(** The filters that [get_template] registers in the Jinja2 environment. *)
Record Filters : Type := mkFilters {
  filter_split_by : list IconDetails -> nat -> list (list IconDetails);
  filter_icon_group_order : list string -> Py.result (list string)
}.

(** A loaded [jinja2.Template] is its [render] method, applied to the
    three named values [icons], [groups] and [row_size]. *)
Definition Template : Type :=
  gmap string (list IconDetails) -> list string -> nat -> Py.result string.

Record World : Type := mkWorld {
  (** [os.path.expanduser] and [os.path.abspath] *)
  expanduser : string -> string;
  abspath : string -> string;
  (** [os.path.exists] *)
  path_exists : string -> bool;
  (** [os.walk(top, topdown=True)]: the triples [(root, dirs, files)] *)
  walk : string -> list (string * list string * list string);
  (** [os.path.relpath(path, start)] *)
  os_relpath : string -> string -> string;
  (** [jinja2.Environment(loader=FileSystemLoader(path))] with the given
      filters, then [env.get_template(name)] *)
  jinja2_get_template : Filters -> string -> string -> Py.result Template;
  (** [os.makedirs(path, exist_ok=True)]: the exception it raises, if any *)
  makedirs : string -> option Py.exception;
  (** [open(path, 'wt', encoding='utf-8')] and [fp.write(text)] *)
  open_wt : string -> option Py.exception;
  write_text : string -> string -> option Py.exception
}.

(** ** Path arguments *)

Definition fs_path (w : World) (path : string) : string :=
  abspath w (expanduser w path).

Definition fs_path_exists (w : World) (path : string) : option string :=
  let _path := fs_path w path in
  if path_exists w _path then Some _path else None.

(** The command line, already split by [argparse] into its three
    positionals and four [store_true] options. *)
Record Argv : Type := mkArgv {
  arg_icons : string;
  arg_template : string;
  arg_result : string;
  opt_small : bool;
  opt_medium : bool;
  opt_large : bool;
  opt_cover : bool
}.

(** [configure_parser().parse_args()]: each positional goes through its
    [type=] function. *)
Definition parse_args (w : World) (argv : Argv) : Namespace :=
  {| icons := fs_path_exists w (arg_icons argv);
     template := fs_path_exists w (arg_template argv);
     result := fs_path w (arg_result argv);
     small := opt_small argv;
     medium := opt_medium argv;
     large := opt_large argv;
     cover := opt_cover argv |}.

(** ** Template loading *)

Definition get_template (w : World) (template_name template_path : string)
  : Py.result Template :=
  jinja2_get_template w
    {| filter_split_by := split_by; filter_icon_group_order := icon_group_order |}
    template_name template_path.

(** ** Icon indexing *)

(** Line 118: [ICON_GROUP_MARKS.get(icon_name.split('-')[1], 'unknown')]. *)
Definition icon_group (icon_name : string) : Py.result string :=
  do mark <- Py.getitem (Py.split "-" icon_name) 1;
  Py.ret (Py.dict_get ICON_GROUP_MARKS mark "unknown").

(** Lines 115-120: the record built for the icon file [fname]. *)
Definition icon_details (w : World) (fname result_dir : string)
  : Py.result IconDetails :=
  do icon_name <- Py.getitem (Py.rsplit1 "." (PosixPath.basename fname)) 0;
  do icon_grp <- icon_group icon_name;
  Py.ret {| name := icon_name;
            group := icon_grp;
            relpath := os_relpath w fname result_dir |}.

(** Lines 113-123: the body of the inner loop, for one directory entry. *)
Definition get_icons_file (w : World) (result_dir root : string)
  (icons : gmap string (list IconDetails)) (filename : string)
  : Py.result (gmap string (list IconDetails)) :=
  let fname := PosixPath.join root filename in
  if Py.endswith (Py.lower fname) ".svg" then
    do details <- icon_details w fname result_dir;
    let icons :=
      match icons !! group details with
      | None => <[group details := []]> icons
      | Some _ => icons
      end in
    Py.ret (<[group details := ((icons !!! group details) ++ [details])%list]> icons)
  else Py.ret icons.

(** Lines 124-125: one step of the loop that sorts each group in place. *)
Definition get_icons_sort_group (icons : gmap string (list IconDetails))
  (_group : string) : Py.result (gmap string (list IconDetails)) :=
  do l <- Py.sorted_by_key name (icons !!! _group);
  Py.ret (<[_group := l]> icons).

(** Collect icons info. *)
Definition get_icons (w : World) (icons_path result_dir : string)
  : Py.result (gmap string (list IconDetails)) :=
  do icons <-
    Py.for_each
      (fun icons '(root, dirs, files) =>
         Py.for_each (get_icons_file w result_dir root) files icons)
      (walk w icons_path) ∅;
  Py.for_each get_icons_sort_group (map_to_list icons).*1 icons.

(** ** The process: effects, exceptions and [sys.exit] *)

(** What unwinds the stack: an [Exception], or the [SystemExit] raised by
    [sys.exit], which [except Exception] does not catch. *)
Inductive signal : Type :=
| Raised (e : Py.exception)
| SystemExit (code : Z).

(** A step of the process: the events it emitted, then its value or the
    signal that interrupted it. *)
Definition proc (A : Type) : Type := (list event * (signal + A))%type.

Definition proc_ret {A} (a : A) : proc A := ([], inr a).

Definition proc_bind {A B} (m : proc A) (k : A -> proc B) : proc B :=
  match m with
  | (t, inl s) => (t, inl s)
  | (t, inr a) => let '(t', r) := k a in ((t ++ t')%list, r)
  end.

Notation "'run' x <- m ; k" := (proc_bind m (fun x => k))
  (at level 10, x name, m at level 100, k at level 200, only parsing).
Notation "m ;; k" := (proc_bind m (fun _ => k))
  (at level 100, k at level 200, right associativity, only parsing).

Definition emit (ev : event) : proc unit := ([ev], inr tt).

(** A pure call that may raise. *)
Definition call {A} (r : Py.result A) : proc A :=
  match r with
  | inl e => ([], inl (Raised e))
  | inr a => ([], inr a)
  end.

(** A system call: its event is recorded, then it may raise. *)
Definition syscall (ev : event) (r : option Py.exception) : proc unit :=
  match r with
  | Some e => ([ev], inl (Raised e))
  | None => ([ev], inr tt)
  end.

Definition sys_exit {A} (code : Z) : proc A := ([], inl (SystemExit code)).

(** [try: body except Exception as exc: handler(exc)]. *)
Definition try_except {A} (body : proc A) (handler : Py.exception -> proc A)
  : proc A :=
  match body with
  | (t, inl (Raised exc)) => let '(t', r) := handler exc in ((t ++ t')%list, r)
  | other => other
  end.

(** [logging] levels; the module logger is set to [INFO]. *)
Definition DEBUG : nat := 10.
Definition INFO : nat := 20.
Definition ERROR : nat := 40.
Definition logger_level : nat := INFO.

Definition logger_log (level : nat) (msg : string)
  (exc_info : option Py.exception) : proc unit :=
  if (logger_level <=? level)%nat then emit (Log level msg exc_info)
  else proc_ret tt.

(** [os.EX_OK] and [os.EX_DATAERR]. *)
Definition EX_OK : Z := 0.
Definition EX_DATAERR : Z := 65.

(** [logger.debug(flags)] is below the level of the logger and leaves no
    trace; its message is not modelled further. *)
Definition main (w : World) (argv : Argv) : proc unit :=
  let flags := parse_args w argv in
  logger_log DEBUG "flags" None ;;
  match icons flags with
  | None => logger_log ERROR "Icons path not found" None ;; sys_exit EX_DATAERR
  | Some flags_icons =>
  match template flags with
  | None => logger_log ERROR "Template not found" None ;; sys_exit EX_DATAERR
  | Some flags_template =>
      run icons <- call (get_icons w flags_icons (PosixPath.dirname (result flags)));
      let groups := get_groups flags in
      run template <- call (get_template w (PosixPath.basename flags_template)
                                           (PosixPath.dirname flags_template));
      try_except
        (syscall (MakeDirs (PosixPath.dirname (result flags)))
                 (makedirs w (PosixPath.dirname (result flags))) ;;
         syscall (OpenForWriting (result flags)) (open_wt w (result flags)) ;;
         run text <- call (template icons groups DEFAULT_ELEMENTS_PER_ROW);
         syscall (WriteText (result flags) text)
                 (write_text w (result flags) text) ;;
         logger_log INFO ("Result file stored at: " ++ result flags) None)
        (fun exc =>
           logger_log ERROR "Error: %s" (Some exc) ;; sys_exit 1%Z) ;;
      sys_exit EX_OK
  end
  end.

(** How the interpreter ends: [sys.exit(code)], or an exception that
    nothing caught and that prints a traceback. *)
Inductive outcome : Type :=
| Exit (code : Z)
| UnhandledException (e : Py.exception).

Definition run_main (w : World) (argv : Argv) : list event * outcome :=
  match main w argv with
  | (t, inl (SystemExit code)) => (t, Exit code)
  | (t, inl (Raised e)) => (t, UnhandledException e)
  | (t, inr _) => (t, Exit 0%Z)
  end.

(** ** A sample environment *)

Module Sample.

(** A template that prints, for each selected group in canonical
    order, the group and its icon names in rows. *)
Definition render_rows (rows : list (list IconDetails)) : string :=
  String.concat ";" (map (fun row => String.concat "," (map name row)) rows).

Definition preview (f : Filters) : Template :=
  fun icons groups row_size =>
    do ordered <- filter_icon_group_order f groups;
    Py.ret (String.concat "|"
      (map (fun g => g ++ ":" ++
              render_rows (filter_split_by f (icons !!! g) row_size))
           ordered)).

(** The walk of the scanned tree is [scan]; the templates
    [/tpl/preview.html] and [/tpl/broken.html] exist, the second one has
    a syntax error; every system call succeeds. *)
Definition world_of (scan : string -> list (string * list string * list string))
  : World :=
  {| expanduser := fun p => p;
     abspath := fun p => p;
     path_exists := fun p =>
       String.eqb p "/icons" || String.eqb p "/tpl/preview.html"
       || String.eqb p "/tpl/broken.html";
     walk := scan;
     os_relpath := fun p start => "../" ++ Py.slice_from 1 p;
     jinja2_get_template := fun f tname tpath =>
       if String.eqb tname "preview.html" then Py.ret (preview f)
       else if String.eqb tname "broken.html"
            then Py.raise (Py.TemplateError "TemplateSyntaxError")
            else Py.raise (Py.TemplateError "TemplateNotFound");
     makedirs := fun _ => None;
     open_wt := fun _ => None;
     write_text := fun _ _ => None |}.

(** A flat directory that holds [files]. *)
Definition world (files : list string) : World :=
  world_of (fun top => [(top, [], files)]).

(** A directory with a sub-directory; [a-s.svg] is in both. *)
Definition world_nested : World :=
  world_of (fun top =>
    [(top, ["dark"], ["b-s.svg"; "a-s.svg"; "note.txt"]);
     (PosixPath.join top "dark", [], ["a-s.svg"; "c-m.svg"])]).

Definition nested_index : gmap string (list IconDetails) :=
  list_to_map
    [("small", [mkIconDetails "a-s" "small" "../icons/a-s.svg";
                mkIconDetails "a-s" "small" "../icons/dark/a-s.svg";
                mkIconDetails "b-s" "small" "../icons/b-s.svg"]);
     ("medium", [mkIconDetails "c-m" "medium" "../icons/dark/c-m.svg"])].

(** The same, on a read-only output directory. *)
Definition world_read_only (files : list string) : World :=
  {| expanduser := expanduser (world files);
     abspath := abspath (world files);
     path_exists := path_exists (world files);
     walk := walk (world files);
     os_relpath := os_relpath (world files);
     jinja2_get_template := jinja2_get_template (world files);
     makedirs := fun _ => None;
     open_wt := fun _ => Some (Py.OSError "PermissionError");
     write_text := fun _ _ => None |}.

(** The same, with a template that loads and whose rendering raises. *)
Definition world_render_fails (files : list string) : World :=
  {| expanduser := expanduser (world files);
     abspath := abspath (world files);
     path_exists := path_exists (world files);
     walk := walk (world files);
     os_relpath := os_relpath (world files);
     jinja2_get_template := fun _ _ _ =>
       Py.ret (fun _ _ _ => Py.raise (Py.TemplateError "UndefinedError"));
     makedirs := fun _ => None;
     open_wt := fun _ => None;
     write_text := fun _ _ => None |}.

Definition argv (icons_dir template_file : string) : Argv :=
  {| arg_icons := icons_dir;
     arg_template := template_file;
     arg_result := "/out/index.html";
     opt_small := false; opt_medium := false;
     opt_large := false; opt_cover := false |}.

Definition scenario_files : list string :=
  ["app-s.svg"; "app-m.svg"; "app-l.svg"; "app-cover.svg"; "app-lock.svg";
   "readme.txt"].

End Sample.


(** ** Reference definitions used in the statements *)

Module Spec.

(** The text before the first [sep] of [s]; all of [s] if there is none. *)
Fixpoint before_first (sep : ascii) (s : string) : string :=
  match s with
  | EmptyString => EmptyString
  | String c s' =>
      if Ascii.eqb c sep then EmptyString else String c (before_first sep s')
  end.

(** The text after the first [sep] of [s], if there is one. *)
Fixpoint after_first (sep : ascii) (s : string) : option string :=
  match s with
  | EmptyString => None
  | String c s' => if Ascii.eqb c sep then Some s' else after_first sep s'
  end.

(** The token following the first [-] of a base name: it ends at the
    next [-] or at the end of the name. *)
Definition token (icon_name : string) : option string :=
  before_first "-" <$> after_first "-" icon_name.

(** The lookup table of the classifier, one token per category. *)
Definition category (tok : string) : string :=
  if String.eqb tok "l" then "large"
  else if String.eqb tok "s" then "small"
  else if String.eqb tok "m" then "medium"
  else if String.eqb tok "cover" then "cover"
  else if String.eqb tok "lock" then "notification"
  else "unknown".

(** Ceiling of [a / b]. *)
Definition ceil_div (a b : nat) : nat := (a + b - 1) / b.

(** Position of a group in the canonical order ([5] for any other name). *)
Definition rank (g : string) : nat :=
  match Py.index g ICON_GROUP_ORDER with
  | inr i => i
  | inl _ => List.length ICON_GROUP_ORDER
  end.

(** Stable insertion sort for a comparison that cannot raise. *)
Section Sort.
Context {A : Type} (ltb : A -> A -> bool).

(** [le_of ltb x y]: [y] is not smaller than [x]. *)
Definition le_of (x y : A) : Prop := ltb y x = false.

Fixpoint insert (x : A) (l : list A) : list A :=
  match l with
  | [] => [x]
  | y :: l' => if ltb y x then y :: insert x l' else x :: y :: l'
  end.

Fixpoint isort (l : list A) : list A :=
  match l with
  | [] => []
  | x :: l' => insert x (isort l')
  end.
End Sort.

(** Ascending order of names, as [str] compares them. *)
Definition name_le (a b : IconDetails) : Prop :=
  String.leb (name a) (name b) = true.

Definition sort_by_name (l : list IconDetails) : list IconDetails :=
  isort (fun a b => String.ltb (name a) (name b)) l.

(** The paths of the [.svg] files of a scan, in the order of the walk. *)
Definition is_svg (fname : string) : bool :=
  Py.endswith (Py.lower fname) ".svg".

Definition svg_files (w : World) (icons_path : string) : list string :=
  flat_map
    (fun '(root, _, files) =>
       List.filter is_svg (map (PosixPath.join root) files))
    (walk w icons_path).

(** The records of a scan in discovery order, if every one can be built. *)
Fixpoint records (w : World) (result_dir : string) (fnames : list string)
  : Py.result (list IconDetails) :=
  match fnames with
  | [] => Py.ret []
  | fname :: rest =>
      do d <- icon_details w fname result_dir;
      do ds <- records w result_dir rest;
      Py.ret (d :: ds)
  end.

Definition discovered (w : World) (icons_path result_dir : string)
  : Py.result (list IconDetails) :=
  records w result_dir (svg_files w icons_path).

(** The base name of an icon file, as [get_icons] computes it. *)
Definition icon_name_of (fname : string) : string :=
  match Py.rsplit1 "." (PosixPath.basename fname) with
  | stem :: _ => stem
  | [] => EmptyString
  end.

(** The base name of [fname] has a [-]. *)
Definition has_dash (fname : string) : bool :=
  Py.contains "-" (icon_name_of fname).

(** Groups in canonical order, strictly: no group twice. *)
Definition rank_lt (a b : string) : Prop := rank a < rank b.
Definition rank_le (a b : string) : Prop := rank a <= rank b.

(** The closed set of group names that a record can carry. *)
Definition all_groups : list string :=
  (ICON_GROUP_ORDER ++ ["unknown"])%list.

(** Some size or type flag is set. *)
Definition any_flag (flags : Namespace) : bool :=
  small flags || medium flags || large flags || cover flags.

(** A name of the canonical order. *)
Definition canonical (g : string) : bool :=
  bool_decide (g ∈ ICON_GROUP_ORDER).

(** What a scanned icon file and its record have in common. *)
Definition record_of (w : World) (result_dir fname : string)
  (d : IconDetails) : Prop :=
  name d = icon_name_of fname /\
  relpath d = os_relpath w fname result_dir /\
  exists tok, token (icon_name_of fname) = Some tok /\ group d = category tok.

(** One record added to the index (lines 121-123). *)
Definition add_record (icons : gmap string (list IconDetails))
  (d : IconDetails) : gmap string (list IconDetails) :=
  <[group d := (default [] (icons !! group d) ++ [d])%list]> icons.

End Spec.

(** * Properties *)

(** ** Worked examples *)

Example split_ex : Py.split "-" "app-s-2" = ["app"; "s"; "2"].
Proof. reflexivity. Qed.

Example rsplit1_ex : Py.rsplit1 "." "a.b-s.svg" = ["a.b-s"; "svg"].
Proof. reflexivity. Qed.

Example basename_ex : PosixPath.basename "/icons/sub/app-s.svg" = "app-s.svg".
Proof. reflexivity. Qed.

Example dirname_ex : PosixPath.dirname "/out/dir/preview.html" = "/out/dir".
Proof. reflexivity. Qed.

Example join_ex : PosixPath.join "/icons" "app-s.svg" = "/icons/app-s.svg".
Proof. reflexivity. Qed.

Example lower_ex : Py.lower "App-S.SVG" = "app-s.svg".
Proof. reflexivity. Qed.

Example split_by_ex : split_by [1; 2; 3; 4; 5; 6; 7]%nat 3 = [[1; 2; 3]; [4; 5; 6]; [7]]%nat.
Proof. reflexivity. Qed.

Example split_by_zero_ex : split_by [1; 2; 3]%nat 0 = [].
Proof. reflexivity. Qed.

Example icon_group_order_ex :
  icon_group_order ["cover"; "small"; "large"] = inr ["small"; "large"; "cover"].
Proof. reflexivity. Qed.

Example icon_group_order_unknown_ex :
  icon_group_order ["cover"; "unknown"] = inl Py.ValueError.
Proof. reflexivity. Qed.

Example get_groups_ex :
  get_groups (mkNamespace None None "" true false true false) = ["small"; "large"].
Proof. reflexivity. Qed.

Example get_icons_scenario :
  get_icons (Sample.world Sample.scenario_files) "/icons" "/out"
  = inr (list_to_map
      [("small", [mkIconDetails "app-s" "small" "../icons/app-s.svg"]);
       ("medium", [mkIconDetails "app-m" "medium" "../icons/app-m.svg"]);
       ("large", [mkIconDetails "app-l" "large" "../icons/app-l.svg"]);
       ("cover", [mkIconDetails "app-cover" "cover" "../icons/app-cover.svg"]);
       ("notification", [mkIconDetails "app-lock" "notification" "../icons/app-lock.svg"])]).
Proof. vm_compute. reflexivity. Qed.

Example run_main_scenario :
  run_main (Sample.world Sample.scenario_files)
    (Sample.argv "/icons" "/tpl/preview.html")
  = ([MakeDirs "/out"; OpenForWriting "/out/index.html";
      WriteText "/out/index.html"
        "small:app-s|medium:app-m|large:app-l|cover:app-cover|notification:app-lock";
      Log INFO "Result file stored at: /out/index.html" None],
     Exit 0%Z).
Proof. vm_compute. reflexivity. Qed.


(** ** Strings and paths *)

Lemma app_cons_str x (a b : string) : String x a ++ b = String x (a ++ b).
Proof. reflexivity. Qed.

Lemma app_nil_str (b : string) : "" ++ b = b.
Proof. reflexivity. Qed.

(** [String.append] does not unfold under [simpl]: push it inwards first. *)
Ltac str_simpl := rewrite ?app_cons_str, ?app_nil_str; simpl.

Section StringFacts.

Lemma split_before_after sep s :
  Py.split sep s =
  Spec.before_first sep s ::
    match Spec.after_first sep s with
    | None => []
    | Some r => Py.split sep r
    end.
Proof.
  induction s as [|c s IH]; simpl; [reflexivity|].
  destruct (Ascii.eqb c sep); [reflexivity|].
  rewrite IH. reflexivity.
Qed.

(** [s.split(sep)[1]]: the token after the first separator, or
    [IndexError] when there is no separator. *)
Lemma getitem_split_1 sep s :
  Py.getitem (Py.split sep s) 1 =
  match Spec.after_first sep s with
  | None => inl Py.IndexError
  | Some r => inr (Spec.before_first sep r)
  end.
Proof.
  rewrite split_before_after.
  destruct (Spec.after_first sep s) as [r|]; [|reflexivity].
  rewrite (split_before_after sep r). reflexivity.
Qed.

Lemma after_first_None sep s :
  Spec.after_first sep s = None <-> Py.contains sep s = false.
Proof.
  induction s as [|c s IH]; simpl; [tauto|].
  destruct (Ascii.eqb c sep); simpl; [split; discriminate | exact IH].
Qed.

Lemma after_first_app sep a b :
  Py.contains sep a = false ->
  Spec.after_first sep (a ++ String sep b) = Some b.
Proof.
  induction a as [|c a IH]; str_simpl.
  - intros _. rewrite Ascii.eqb_refl. reflexivity.
  - destruct (Ascii.eqb c sep); simpl; [discriminate | exact IH].
Qed.

Lemma before_first_no_sep sep a :
  Py.contains sep a = false -> Spec.before_first sep a = a.
Proof.
  induction a as [|c a IH]; simpl; [reflexivity|].
  destruct (Ascii.eqb c sep); simpl; [discriminate|].
  intros H. rewrite IH; auto.
Qed.

Lemma before_first_app sep a b :
  Py.contains sep a = false ->
  Spec.before_first sep (a ++ String sep b) = a.
Proof.
  induction a as [|c a IH]; str_simpl.
  - intros _. rewrite Ascii.eqb_refl. reflexivity.
  - destruct (Ascii.eqb c sep); simpl; [discriminate|].
    intros H. rewrite IH; auto.
Qed.

Lemma startswith_sep s c :
  Py.startswith s (String c "") = true -> exists r, s = String c r.
Proof.
  unfold Py.startswith. destruct s as [|a s]; simpl; [discriminate|].
  destruct (ascii_dec c a) as [->|]; [eauto | discriminate].
Qed.

Lemma startswith_contains s c :
  Py.contains c s = false -> Py.startswith s (String c "") = false.
Proof.
  destruct (Py.startswith s (String c "")) eqn:E; [|reflexivity].
  apply startswith_sep in E as [r ->]. simpl. rewrite Ascii.eqb_refl.
  discriminate.
Qed.

Lemma contains_app c a b :
  Py.contains c (a ++ b) = Py.contains c a || Py.contains c b.
Proof.
  induction a as [|x a IH]; str_simpl; [reflexivity|].
  rewrite IH. now rewrite orb_assoc.
Qed.

Lemma app_assoc_str (a b c : string) : (a ++ b) ++ c = a ++ (b ++ c).
Proof. induction a as [|x a IH]; str_simpl; [reflexivity | now f_equal]. Qed.

Lemma length_app_str (a b : string) :
  String.length (a ++ b) = (String.length a + String.length b)%nat.
Proof. induction a as [|x a IH]; str_simpl; [reflexivity | now rewrite IH]. Qed.

Lemma substring_all (p : string) : String.substring 0 (String.length p) p = p.
Proof. induction p as [|x p IH]; simpl; [reflexivity | now rewrite IH]. Qed.

Lemma substring_skip (a b : string) n :
  String.substring (String.length a) n (a ++ b) = String.substring 0 n b.
Proof. induction a as [|x a IH]; str_simpl; [reflexivity | exact IH]. Qed.

Lemma endswith_app a p : Py.endswith (a ++ p) p = true.
Proof.
  unfold Py.endswith. rewrite length_app_str.
  replace (String.length a + String.length p - String.length p)%nat
    with (String.length a) by lia.
  rewrite substring_skip, substring_all, String.eqb_refl.
  rewrite andb_true_r. apply Nat.leb_le. lia.
Qed.

Lemma endswith_inv a c :
  Py.endswith a (String c "") = true -> exists a', a = a' ++ String c "".
Proof.
  unfold Py.endswith. simpl String.length.
  intros [_ Heq]%andb_prop. apply String.eqb_eq in Heq.
  revert Heq. induction a as [|x a IH]; [discriminate|].
  destruct a as [|y a].
  - simpl. intros [= ->]. exists "". reflexivity.
  - intros H. destruct IH as [a' Ha'].
    + simpl String.length in *.
      replace (S (S (String.length a)) - 1)%nat
        with (S (String.length a)) in H by lia.
      replace (S (String.length a) - 1)%nat with (String.length a) by lia.
      exact H.
    + exists (String x a'). rewrite Ha'. reflexivity.
Qed.

Lemma lower_app a b : Py.lower (a ++ b) = Py.lower a ++ Py.lower b.
Proof. induction a as [|x a IH]; str_simpl; [reflexivity | now rewrite IH]. Qed.

Lemma rfind_no_sep c s : Py.contains c s = false -> Py.rfind c s = (-1)%Z.
Proof.
  induction s as [|x s IH]; simpl; [reflexivity|].
  intros [Hx Hs]%orb_false_elim. rewrite (IH Hs), Hx. reflexivity.
Qed.

Lemma rfind_app c a b :
  Py.contains c b = false ->
  Py.rfind c (a ++ String c b) = Z.of_nat (String.length a).
Proof.
  intros Hb. induction a as [|x a IH].
  - rewrite app_nil_str. simpl.
    rewrite (rfind_no_sep _ _ Hb), Ascii.eqb_refl. reflexivity.
  - rewrite app_cons_str. cbn [Py.rfind String.length]. rewrite IH.
    destruct (0 <=? Z.of_nat (String.length a))%Z eqn:E; [lia|].
    apply Z.leb_gt in E. lia.
Qed.

Lemma slice_from_app a b : Py.slice_from (String.length a) (a ++ b) = b.
Proof.
  unfold Py.slice_from. rewrite length_app_str, substring_skip.
  replace (String.length a + String.length b - String.length a)%nat
    with (String.length b) by lia.
  apply substring_all.
Qed.

Lemma basename_no_sep b :
  Py.contains PosixPath.sep b = false -> PosixPath.basename b = b.
Proof.
  intros H. unfold PosixPath.basename. rewrite (rfind_no_sep _ _ H).
  apply (slice_from_app "" b).
Qed.

Lemma basename_app_sep a b :
  Py.contains PosixPath.sep b = false ->
  PosixPath.basename (a ++ String PosixPath.sep b) = b.
Proof.
  intros H. unfold PosixPath.basename. rewrite (rfind_app _ _ _ H).
  replace (Z.to_nat (Z.of_nat (String.length a) + 1))
    with (String.length (a ++ "/")) by (rewrite length_app_str; simpl; lia).
  replace (a ++ String PosixPath.sep b) with ((a ++ "/") ++ b)
    by (rewrite app_assoc_str; reflexivity).
  apply slice_from_app.
Qed.

(** [os.path.join(root, filename)] ends with the directory entry. *)
Lemma join_suffix root filename :
  Py.contains PosixPath.sep filename = false ->
  PosixPath.join root filename = filename \/
  exists a, PosixPath.join root filename = a ++ String PosixPath.sep filename.
Proof.
  unfold PosixPath.sep. intros H. unfold PosixPath.join.
  rewrite (startswith_contains _ _ H).
  destruct (String.eqb_spec root "") as [->|Hne]; simpl; [now left|].
  destruct (Py.endswith root "/") eqn:E.
  - apply endswith_inv in E as [a ->]. right. exists a.
    rewrite app_assoc_str. reflexivity.
  - right. exists root. reflexivity.
Qed.

Lemma basename_join root filename :
  Py.contains PosixPath.sep filename = false ->
  PosixPath.basename (PosixPath.join root filename) = filename.
Proof.
  intros H. destruct (join_suffix root filename H) as [->|[a ->]].
  - now apply basename_no_sep.
  - now apply basename_app_sep.
Qed.

Lemma rsplit1_no_sep c s : Py.contains c s = false -> Py.rsplit1 c s = [s].
Proof.
  induction s as [|x s IH]; simpl; [reflexivity|].
  intros [Hx Hs]%orb_false_elim. rewrite (IH Hs), Hx. reflexivity.
Qed.

Lemma rsplit1_app c a b :
  Py.contains c b = false -> Py.rsplit1 c (a ++ String c b) = [a; b].
Proof.
  intros Hb. induction a as [|x a IH].
  - rewrite app_nil_str. simpl.
    rewrite (rsplit1_no_sep _ _ Hb), Ascii.eqb_refl. reflexivity.
  - rewrite app_cons_str. cbn [Py.rsplit1]. rewrite IH. reflexivity.
Qed.

Lemma dict_get_marks tok :
  Py.dict_get ICON_GROUP_MARKS tok "unknown" = Spec.category tok.
Proof.
  unfold Spec.category, ICON_GROUP_MARKS, Py.dict_get.
  rewrite !(String.eqb_sym tok). reflexivity.
Qed.

(** The classifier, in terms of the token after the first dash. *)
Lemma icon_group_token icon_name :
  icon_group icon_name =
  match Spec.token icon_name with
  | None => inl Py.IndexError
  | Some tok => inr (Spec.category tok)
  end.
Proof.
  unfold icon_group, Spec.token. rewrite getitem_split_1.
  destruct (Spec.after_first "-" icon_name); [|reflexivity].
  cbn [Py.bind fmap option_fmap option_map]. unfold Py.ret.
  now rewrite dict_get_marks.
Qed.

End StringFacts.

(** ** The filename classifier *)

(** Case analysis on every comparison of [tok] with a literal. *)
Ltac case_tok tok :=
  repeat match goal with
    | |- context [String.eqb tok ?k] =>
        destruct (String.eqb_spec tok k) as [->|?]; simpl
    end.

Section Classifier.

Lemma category_small tok : Spec.category tok = "small" <-> tok = "s".
Proof.
  unfold Spec.category.
  case_tok tok;
    split; intros; congruence.
Qed.

Lemma category_medium tok : Spec.category tok = "medium" <-> tok = "m".
Proof.
  unfold Spec.category.
  case_tok tok;
    split; intros; congruence.
Qed.

Lemma category_large tok : Spec.category tok = "large" <-> tok = "l".
Proof.
  unfold Spec.category.
  case_tok tok;
    split; intros; congruence.
Qed.

Lemma category_cover tok : Spec.category tok = "cover" <-> tok = "cover".
Proof.
  unfold Spec.category.
  case_tok tok;
    split; intros; congruence.
Qed.

Lemma category_notification tok :
  Spec.category tok = "notification" <-> tok = "lock".
Proof.
  unfold Spec.category.
  case_tok tok;
    split; intros; congruence.
Qed.

Lemma category_unknown tok :
  Spec.category tok = "unknown" <-> ~ In tok ["l"; "s"; "m"; "cover"; "lock"].
Proof.
  unfold Spec.category.
  case_tok tok;
    split; intros; try reflexivity; try discriminate; try tauto.
  intuition congruence.
Qed.

Lemma token_decomposed prefix tok rest :
  Py.contains "-" prefix = false ->
  Py.contains "-" tok = false ->
  rest = "" \/ Py.startswith rest "-" = true ->
  Spec.token (prefix ++ "-" ++ tok ++ rest) = Some tok.
Proof.
  intros Hp Ht Hr. unfold Spec.token.
  rewrite app_cons_str, app_nil_str, (after_first_app _ _ _ Hp).
  cbn [fmap option_fmap option_map]. f_equal.
  destruct Hr as [->|Hr].
  - replace (tok ++ "") with tok
      by (clear; induction tok as [|x t IH]; str_simpl; congruence).
    now apply before_first_no_sep.
  - apply startswith_sep in Hr as [r ->]. now apply before_first_app.
Qed.

Lemma is_svg_join root stem :
  Py.contains "/" (stem ++ ".svg") = false ->
  Spec.is_svg (PosixPath.join root (stem ++ ".svg")) = true.
Proof.
  intros H. unfold Spec.is_svg.
  destruct (join_suffix root _ H) as [->|[a ->]].
  - rewrite lower_app. apply endswith_app.
  - replace (a ++ String PosixPath.sep (stem ++ ".svg"))
      with ((a ++ String PosixPath.sep stem) ++ ".svg")
      by (rewrite app_assoc_str; reflexivity).
    rewrite lower_app. apply endswith_app.
Qed.

Lemma icon_name_of_svg root stem :
  Py.contains "/" (stem ++ ".svg") = false ->
  Py.getitem (Py.rsplit1 "." (PosixPath.basename
               (PosixPath.join root (stem ++ ".svg")))) 0 = inr stem.
Proof.
  intros H. rewrite (basename_join _ _ H).
  change (stem ++ ".svg") with (stem ++ String "." "svg").
  rewrite rsplit1_app by reflexivity. reflexivity.
Qed.

End Classifier.

(** C5. For every base name that contains a [-], the classifier takes the
    token that follows the first [-] (up to the next [-] or the end of the
    name) and looks it up in the exact table [l] -> large, [s] -> small,
    [m] -> medium, [cover] -> cover, [lock] -> notification; a token that
    is not in the table gives [unknown]. *)
Theorem icon_group_exact_lookup (icon_name : string) :
  Py.contains "-" icon_name = true ->
  exists tok,
    Spec.token icon_name = Some tok /\
    icon_group icon_name = inr (Spec.category tok) /\
    (tok = "l" -> icon_group icon_name = inr "large") /\
    (tok = "s" -> icon_group icon_name = inr "small") /\
    (tok = "m" -> icon_group icon_name = inr "medium") /\
    (tok = "cover" -> icon_group icon_name = inr "cover") /\
    (tok = "lock" -> icon_group icon_name = inr "notification") /\
    (~ In tok ["l"; "s"; "m"; "cover"; "lock"] ->
     icon_group icon_name = inr "unknown").
Proof.
  intros Hdash. rewrite icon_group_token. unfold Spec.token.
  destruct (Spec.after_first "-" icon_name) as [r|] eqn:E.
  - exists (Spec.before_first "-" r). cbn [fmap option_fmap option_map].
    split; [reflexivity|]. split; [reflexivity|].
    repeat split; intros H; try (rewrite H; reflexivity).
    apply category_unknown in H. now rewrite H.
  - apply after_first_None in E. congruence.
Qed.

Lemma icon_group_exact_lookup_witness :
  Py.contains "-" "app-cover-dark" = true /\
  exists tok,
    Spec.token "app-cover-dark" = Some tok /\
    icon_group "app-cover-dark" = inr (Spec.category tok) /\
    (tok = "l" -> icon_group "app-cover-dark" = inr "large") /\
    (tok = "s" -> icon_group "app-cover-dark" = inr "small") /\
    (tok = "m" -> icon_group "app-cover-dark" = inr "medium") /\
    (tok = "cover" -> icon_group "app-cover-dark" = inr "cover") /\
    (tok = "lock" -> icon_group "app-cover-dark" = inr "notification") /\
    (~ In tok ["l"; "s"; "m"; "cover"; "lock"] ->
     icon_group "app-cover-dark" = inr "unknown").
Proof.
  split; [reflexivity|].
  apply (icon_group_exact_lookup "app-cover-dark"). reflexivity.
Defined.

(** C4, as stated, fails: the file [app-small.svg] has the form
    [prefix-s*.svg], its middle token [small] begins with [s], and it is
    classified [unknown], not [small]. *)
Lemma classification_prefix_counterexample :
  Py.startswith "small" "s" = true /\
  Spec.is_svg (PosixPath.join "/icons" "app-small.svg") = true /\
  (do d <- icon_details (Sample.world ["app-small.svg"])
             (PosixPath.join "/icons" "app-small.svg") "/out";
   Py.ret (group d))
  = inr "unknown" /\
  "unknown" <> "small".
Proof. repeat split. discriminate. Qed.

(** C4, amended. For every directory entry (a file name without [/]) of
    the form [prefix-token.svg] or [prefix-token-more.svg], where [token]
    is the text between the first [-] of the base name and the next [-]
    or the end of the base name,
    the file is taken as an icon and classified [small], [medium],
    [large], [cover] or [notification] exactly when [token] is exactly
    [s], [m], [l], [cover] or [lock]; every other token, also one that
    only begins with such a mark, gives [unknown]. *)
Theorem classification_by_exact_token (w : World)
  (root result_dir prefix tok rest : string) :
  Py.contains "/" (prefix ++ "-" ++ tok ++ rest ++ ".svg") = false ->
  Py.contains "-" prefix = false ->
  Py.contains "-" tok = false ->
  rest = "" \/ Py.startswith rest "-" = true ->
  let fname := PosixPath.join root (prefix ++ "-" ++ tok ++ rest ++ ".svg") in
  Spec.is_svg fname = true /\
  exists d,
    icon_details w fname result_dir = inr d /\
    name d = prefix ++ "-" ++ tok ++ rest /\
    (group d = "small" <-> tok = "s") /\
    (group d = "medium" <-> tok = "m") /\
    (group d = "large" <-> tok = "l") /\
    (group d = "cover" <-> tok = "cover") /\
    (group d = "notification" <-> tok = "lock") /\
    (group d = "unknown" <-> ~ In tok ["l"; "s"; "m"; "cover"; "lock"]).
Proof.
  intros Hslash Hp Ht Hr fname. subst fname.
  replace (prefix ++ "-" ++ tok ++ rest ++ ".svg")
    with ((prefix ++ "-" ++ tok ++ rest) ++ ".svg") in *
    by (rewrite !app_assoc_str; reflexivity).
  split; [now apply is_svg_join|].
  unfold icon_details. rewrite (icon_name_of_svg _ _ Hslash).
  cbn [Py.bind]. rewrite icon_group_token, (token_decomposed _ _ _ Hp Ht Hr).
  cbn [Py.bind]. eexists; split; [reflexivity|]. cbn [name group].
  split; [reflexivity|].
  split; [apply category_small|]. split; [apply category_medium|].
  split; [apply category_large|]. split; [apply category_cover|].
  split; [apply category_notification | apply category_unknown].
Qed.

Lemma classification_by_exact_token_witness :
  Py.contains "/" ("app" ++ "-" ++ "s" ++ "-dark" ++ ".svg") = false /\
  Py.contains "-" "app" = false /\
  Py.contains "-" "s" = false /\
  ("-dark" = "" \/ Py.startswith "-dark" "-" = true) /\
  let fname := PosixPath.join "/icons" ("app" ++ "-" ++ "s" ++ "-dark" ++ ".svg") in
  Spec.is_svg fname = true /\
  exists d,
    icon_details (Sample.world []) fname "/out" = inr d /\
    name d = "app" ++ "-" ++ "s" ++ "-dark" /\
    (group d = "small" <-> "s" = "s") /\
    (group d = "medium" <-> "s" = "m") /\
    (group d = "large" <-> "s" = "l") /\
    (group d = "cover" <-> "s" = "cover") /\
    (group d = "notification" <-> "s" = "lock") /\
    (group d = "unknown" <-> ~ In "s" ["l"; "s"; "m"; "cover"; "lock"]).
Proof.
  split; [reflexivity|]. split; [reflexivity|]. split; [reflexivity|].
  split; [right; reflexivity|].
  apply (classification_by_exact_token (Sample.world []) "/icons" "/out"
           "app" "s" "-dark");
    [reflexivity | reflexivity | reflexivity | right; reflexivity].
Defined.

(** ** Group selection *)

(** C3, as stated, fails: with no flag set the groups come out in the
    order of the mark table, which starts with [large]. *)
Lemma get_groups_default_counterexample :
  get_groups (parse_args (Sample.world [])
                (Sample.argv "/icons" "/tpl/preview.html"))
  <> ["small"; "medium"; "large"; "cover"; "notification"].
Proof. discriminate. Qed.

(** C3, amended. For every flag combination in which none of [--small],
    [--medium], [--large], [--cover] is set, [get_groups] returns the five
    categories small, medium, large, cover and notification, each once, in
    the order of the values of [ICON_GROUP_MARKS]:
    [large, small, medium, cover, notification]. *)
Theorem get_groups_default (flags : Namespace) :
  small flags = false -> medium flags = false ->
  large flags = false -> cover flags = false ->
  get_groups flags = ["large"; "small"; "medium"; "cover"; "notification"] /\
  Permutation (get_groups flags) ICON_GROUP_ORDER.
Proof.
  intros Hs Hm Hl Hc.
  assert (E : get_groups flags
              = ["large"; "small"; "medium"; "cover"; "notification"]).
  { unfold get_groups.
    rewrite !filter_cons, filter_nil. unfold getattr_flag. simpl.
    rewrite Hs, Hm, Hl, Hc.
    repeat (destruct (decide _) as [?|_]; [discriminate|]).
    reflexivity. }
  split; [exact E|]. rewrite E. unfold ICON_GROUP_ORDER.
  change ["large"; "small"; "medium"; "cover"; "notification"]
    with (["large"] ++ ["small"; "medium"] ++ ["cover"; "notification"])%list.
  change ["small"; "medium"; "large"; "cover"; "notification"]
    with (["small"; "medium"] ++ ["large"] ++ ["cover"; "notification"])%list.
  rewrite !app_assoc. apply Permutation_app_tail, Permutation_app_comm.
Qed.

Lemma get_groups_default_witness :
  let flags := parse_args (Sample.world [])
                 (Sample.argv "/icons" "/tpl/preview.html") in
  small flags = false /\ medium flags = false /\
  large flags = false /\ cover flags = false /\
  get_groups flags = ["large"; "small"; "medium"; "cover"; "notification"] /\
  Permutation (get_groups flags) ICON_GROUP_ORDER.
Proof.
  do 4 (split; [reflexivity|]).
  apply (get_groups_default
           (parse_args (Sample.world [])
              (Sample.argv "/icons" "/tpl/preview.html")));
    reflexivity.
Defined.

(** When a flag is set, the selection is the flagged groups in the order
    small, medium, large, cover. *)
Lemma get_groups_flagged (flags : Namespace) :
  small flags || medium flags || large flags || cover flags = true ->
  get_groups flags =
  ((if small flags then ["small"] else []) ++
   (if medium flags then ["medium"] else []) ++
   (if large flags then ["large"] else []) ++
   (if cover flags then ["cover"] else []))%list.
Proof.
  unfold get_groups. rewrite !filter_cons, filter_nil.
  unfold getattr_flag. simpl.
  destruct (small flags), (medium flags), (large flags), (cover flags);
    try discriminate; intros _; reflexivity.
Qed.

(** ** The command-line driver *)

(** C9. If the icons path or the template path does not exist, the
    process logs one error and ends with [os.EX_DATAERR]; the error log
    is its only effect: no directory is created, no file is opened or
    written. *)
Theorem main_missing_path_data_error (w : World) (argv : Argv) :
  path_exists w (fs_path w (arg_icons argv)) = false \/
  path_exists w (fs_path w (arg_template argv)) = false ->
  exists msg,
    run_main w argv = ([Log ERROR msg None], Exit EX_DATAERR) /\
    (msg = "Icons path not found" \/ msg = "Template not found").
Proof.
  intros H. unfold run_main, main, parse_args, fs_path_exists.
  cbn [icons template].
  destruct (path_exists w (fs_path w (arg_icons argv))).
  - destruct H as [H|H]; [discriminate|]. rewrite H.
    eexists; split; [reflexivity | now right].
  - eexists; split; [reflexivity | now left].
Qed.

Lemma main_missing_path_data_error_witness :
  (path_exists (Sample.world Sample.scenario_files)
     (fs_path (Sample.world Sample.scenario_files)
        (arg_icons (Sample.argv "/nowhere" "/tpl/preview.html"))) = false \/
   path_exists (Sample.world Sample.scenario_files)
     (fs_path (Sample.world Sample.scenario_files)
        (arg_template (Sample.argv "/nowhere" "/tpl/preview.html"))) = false) /\
  exists msg,
    run_main (Sample.world Sample.scenario_files)
      (Sample.argv "/nowhere" "/tpl/preview.html")
    = ([Log ERROR msg None], Exit EX_DATAERR) /\
    (msg = "Icons path not found" \/ msg = "Template not found").
Proof.
  split; [left; reflexivity|].
  apply (main_missing_path_data_error (Sample.world Sample.scenario_files)
           (Sample.argv "/nowhere" "/tpl/preview.html")).
  left. reflexivity.
Defined.

(** Once both paths exist and the index and the template are built, an
    exception of the [try] block is caught: the process logs it and ends
    with status 1, or it ends with status 0. *)
Lemma main_try_block_handled (w : World) (argv : Argv) flags_icons flags_template
  idx tpl :
  fs_path_exists w (arg_icons argv) = Some flags_icons ->
  fs_path_exists w (arg_template argv) = Some flags_template ->
  get_icons w flags_icons (PosixPath.dirname (fs_path w (arg_result argv)))
    = inr idx ->
  get_template w (PosixPath.basename flags_template)
    (PosixPath.dirname flags_template) = inr tpl ->
  exists t,
    run_main w argv = (t, Exit 0%Z) \/
    exists t0 exc,
      run_main w argv = (t, Exit 1%Z) /\
      t = (t0 ++ [Log ERROR "Error: %s" (Some exc)])%list.
Proof.
  intros Hi Ht Hicons Htpl. unfold run_main, main, parse_args.
  cbn [icons template result]. rewrite Hi, Ht. cbn [icons template result].
  rewrite Hicons, Htpl. cbn.
  destruct (makedirs w _) as [e|]; cbn.
  { eexists; right. exists [MakeDirs (PosixPath.dirname (fs_path w (arg_result argv)))], e.
    split; reflexivity. }
  destruct (open_wt w _) as [e|]; cbn.
  { eexists; right. eexists [_; _], e. split; reflexivity. }
  destruct (tpl idx _ _) as [e|text]; cbn.
  { eexists; right. eexists [_; _], e. split; reflexivity. }
  destruct (write_text w _ _) as [e|]; cbn.
  { eexists; right. eexists [_; _; _], e. split; reflexivity. }
  eexists; left; reflexivity.
Qed.

(** C1, failing input: the scanned directory holds [readme.svg], whose
    base name has no [-]; [get_icons] raises [IndexError] instead of
    filing the icon under [unknown]. *)
Theorem get_icons_no_dash_raises :
  Spec.is_svg (PosixPath.join "/icons" "readme.svg") = true /\
  Py.contains "-" "readme" = false /\
  get_icons (Sample.world ["readme.svg"]) "/icons" "/out" = inl Py.IndexError.
Proof. repeat split. Qed.

(** C2, failing input: both paths exist and the scanned directory holds
    [readme.svg]; the [IndexError] of the indexing step is raised before
    the [try] block and ends the process as an unhandled exception, with
    nothing logged. *)
Theorem main_indexing_exception_unhandled :
  run_main (Sample.world ["readme.svg"]) (Sample.argv "/icons" "/tpl/preview.html")
  = ([], UnhandledException Py.IndexError).
Proof. reflexivity. Qed.

(** The same for template loading: a template that exists and does not
    compile makes [get_template] raise before the [try] block. *)
Lemma main_template_exception_unhandled :
  run_main (Sample.world Sample.scenario_files)
    (Sample.argv "/icons" "/tpl/broken.html")
  = ([], UnhandledException (Py.TemplateError "TemplateSyntaxError")).
Proof. vm_compute. reflexivity. Qed.

(** An exception inside the [try] block is caught, logged, and ends the
    process with status 1. *)
Lemma main_write_exception_handled :
  run_main (Sample.world_read_only Sample.scenario_files)
    (Sample.argv "/icons" "/tpl/preview.html")
  = ([MakeDirs "/out"; OpenForWriting "/out/index.html";
      Log ERROR "Error: %s" (Some (Py.OSError "PermissionError"))],
     Exit 1%Z).
Proof. vm_compute. reflexivity. Qed.

(** ** The chunking filter *)

Section SplitBy.
Context {A : Type}.

(** One turn of the loop of [split_by]. *)
Lemma split_by_step (entries : list A) (n : nat) :
  split_by entries n =
  match firstn n entries with
  | [] => []
  | piece => piece :: split_by (skipn n entries) n
  end.
Proof.
  funelim (split_by entries n);
    match goal with E : firstn _ _ = _ |- _ => rewrite E end; reflexivity.
Qed.

Lemma split_by_nil (n : nat) : split_by (@nil A) n = [].
Proof. rewrite split_by_step. now rewrite firstn_nil. Qed.

Lemma split_by_cons (x : A) (entries : list A) (n : nat) :
  1 <= n ->
  split_by (x :: entries) n =
  firstn n (x :: entries) :: split_by (skipn n (x :: entries)) n.
Proof.
  intros Hn. rewrite split_by_step at 1.
  destruct n as [|n]; [lia|]. reflexivity.
Qed.

Lemma ceil_div_0 n : 1 <= n -> Spec.ceil_div 0 n = 0.
Proof. intros Hn. unfold Spec.ceil_div. apply Nat.div_small. lia. Qed.

Lemma ceil_div_step L n :
  1 <= n -> 1 <= L -> Spec.ceil_div L n = S (Spec.ceil_div (L - n) n).
Proof.
  intros Hn HL. unfold Spec.ceil_div.
  destruct (Nat.le_gt_cases L n) as [Hle|Hgt].
  - replace (L - n) with 0 by lia. rewrite (Nat.div_small (0 + n - 1)) by lia.
    symmetry. apply (Nat.div_unique _ _ 1 (L - 1)); lia.
  - replace (L + n - 1) with ((L - n + n - 1) + 1 * n) by lia.
    rewrite Nat.div_add by lia. lia.
Qed.

Lemma split_by_spec (n : nat) (Hn : 1 <= n) (k : nat) :
  forall entries : list A, length entries <= k ->
  length (split_by entries n) = Spec.ceil_div (length entries) n /\
  (forall i piece, split_by entries n !! i = Some piece ->
     S i < length (split_by entries n) -> length piece = n) /\
  (forall piece, last (split_by entries n) = Some piece ->
     1 <= length piece <= n) /\
  concat (split_by entries n) = entries.
Proof.
  induction k as [|k IH]; intros entries Hk.
  - destruct entries; [|simpl in Hk; lia]. rewrite split_by_nil.
    simpl. rewrite ceil_div_0 by lia. repeat split; intros; discriminate.
  - destruct entries as [|x entries].
    { rewrite split_by_nil. simpl. rewrite ceil_div_0 by lia.
      repeat split; intros; discriminate. }
    rewrite (split_by_cons _ _ _ Hn).
    set (rest := skipn n (x :: entries)).
    assert (Hrest : length rest = length (x :: entries) - n)
      by apply length_skipn.
    assert (Hpiece : length (firstn n (x :: entries))
                     = Nat.min n (length (x :: entries)))
      by apply length_firstn.
    destruct (IH rest) as (Hlen & Hfull & Hlast & Hcat).
    { rewrite Hrest. simpl in *. lia. }
    split; [|split; [|split]].
    + cbn [length]. rewrite Hlen, Hrest.
      symmetry. apply ceil_div_step; simpl; lia.
    + intros [|i] piece Hi Hlt.
      * injection Hi as <-. cbn [length] in Hlt.
        rewrite Hlen, Hrest in Hlt.
        destruct (Nat.le_gt_cases (length (x :: entries)) n) as [Hle|Hgt].
        -- replace (length (x :: entries) - n) with 0 in Hlt by lia.
           rewrite ceil_div_0 in Hlt; lia.
        -- rewrite Hpiece. lia.
      * apply (Hfull i piece Hi). cbn [length] in Hlt. lia.
    + intros piece Hl.
      destruct (split_by rest n) as [|c cs] eqn:E.
      * injection Hl as <-. rewrite Hpiece. simpl. lia.
      * apply Hlast. exact Hl.
    + cbn [concat]. rewrite Hcat. apply firstn_skipn.
Qed.

End SplitBy.

(** C6. For every finite sequence of length [L] and every chunk size
    [n >= 1], [split_by] yields exactly [ceil(L / n)] chunks; every chunk
    but the last has length [n], the last one has between [1] and [n]
    elements, and the chunks concatenated in order are the sequence. *)
Theorem split_by_chunks {A : Type} (entries : list A) (n : nat) :
  1 <= n ->
  length (split_by entries n) = Spec.ceil_div (length entries) n /\
  (forall i piece, split_by entries n !! i = Some piece ->
     S i < length (split_by entries n) -> length piece = n) /\
  (forall piece, last (split_by entries n) = Some piece ->
     1 <= length piece <= n) /\
  concat (split_by entries n) = entries.
Proof.
  intros Hn. apply (split_by_spec n Hn (length entries)). lia.
Qed.

Lemma split_by_chunks_witness :
  1 <= 3 /\
  length (split_by [1; 2; 3; 4; 5; 6; 7] 3)
    = Spec.ceil_div (length [1; 2; 3; 4; 5; 6; 7]) 3 /\
  (forall i piece, split_by [1; 2; 3; 4; 5; 6; 7] 3 !! i = Some piece ->
     S i < length (split_by [1; 2; 3; 4; 5; 6; 7] 3) -> length piece = 3) /\
  (forall piece, last (split_by [1; 2; 3; 4; 5; 6; 7] 3) = Some piece ->
     1 <= length piece <= 3) /\
  concat (split_by [1; 2; 3; 4; 5; 6; 7] 3) = [1; 2; 3; 4; 5; 6; 7].
Proof.
  split; [lia|]. apply (split_by_chunks [1; 2; 3; 4; 5; 6; 7] 3). lia.
Defined.

(** ** Sorting *)

Section SortFacts.
Context {A : Type} (ltb : A -> A -> bool).

Local Abbreviation le := (Spec.le_of ltb).

Lemma insert_perm x l : Permutation (Spec.insert ltb x l) (x :: l).
Proof.
  induction l as [|y l IH]; simpl; [reflexivity|].
  destruct (ltb y x); [|reflexivity].
  rewrite IH. apply perm_swap.
Qed.

Lemma isort_perm l : Permutation (Spec.isort ltb l) l.
Proof.
  induction l as [|x l IH]; simpl; [reflexivity|].
  rewrite insert_perm. now rewrite IH.
Qed.

(** A comparison that does not raise on the elements of the list makes
    the sort return the stable insertion sort. *)
Lemma insert_sorted_total (lt : A -> A -> Py.result bool) x l :
  (forall y, In y l -> lt y x = inr (ltb y x)) ->
  Py.insert_sorted lt x l = inr (Spec.insert ltb x l).
Proof.
  induction l as [|y l IH]; intros H; simpl; [reflexivity|].
  rewrite (H y) by now left. cbn [Py.bind].
  destruct (ltb y x); [|reflexivity].
  rewrite IH by (intros; apply H; now right). reflexivity.
Qed.

Lemma sort_total (lt : A -> A -> Py.result bool) l :
  (forall x y, In x l -> In y l -> lt x y = inr (ltb x y)) ->
  Py.sort lt l = inr (Spec.isort ltb l).
Proof.
  induction l as [|x l IH]; intros H; simpl; [reflexivity|].
  rewrite IH by (intros; apply H; now right). cbn [Py.bind].
  apply insert_sorted_total. intros y Hy. apply H; [right|now left].
  eapply Permutation_in; [apply isort_perm | exact Hy].
Qed.

Section Order.
Hypothesis le_trans : forall x y z, le x y -> le y z -> le x z.
Hypothesis ltb_asym : forall x y, ltb x y = true -> ltb y x = false.

Lemma insert_StronglySorted x l :
  StronglySorted le l -> StronglySorted le (Spec.insert ltb x l).
Proof.
  induction 1 as [|y l Hs IH Hy]; simpl.
  - repeat constructor.
  - destruct (ltb y x) eqn:E.
    + constructor; [exact IH|].
      apply List.Forall_forall. intros z Hz.
      apply (Permutation_in _ (insert_perm x l)) in Hz.
      destruct Hz as [<-|Hz]; [now apply ltb_asym|].
      rewrite List.Forall_forall in Hy. now apply Hy.
    + constructor; [now constructor|].
      constructor; [exact E|].
      apply List.Forall_forall. intros z Hz.
      rewrite List.Forall_forall in Hy. apply (le_trans x y z E), Hy, Hz.
Qed.

Lemma isort_StronglySorted l : StronglySorted le (Spec.isort ltb l).
Proof.
  induction l as [|x l IH]; simpl; [constructor|].
  now apply insert_StronglySorted.
Qed.
End Order.

(** Stability: elements that the comparison cannot tell apart keep
    their order. *)
Lemma insert_stable (P : A -> Prop) `{!forall x, Decision (P x)} x l :
  (forall a b, P a -> P b -> ltb a b = false) ->
  filter P (Spec.insert ltb x l) = filter P (x :: l).
Proof.
  intros HP. induction l as [|y l IH]; simpl; [reflexivity|].
  destruct (ltb y x) eqn:E; [|reflexivity].
  rewrite (filter_cons _ y), IH, !filter_cons.
  destruct (decide (P y)) as [Hy|Hy], (decide (P x)) as [Hx|Hx];
    try reflexivity.
  rewrite (HP y x Hy Hx) in E. discriminate.
Qed.

Lemma isort_stable (P : A -> Prop) `{!forall x, Decision (P x)} l :
  (forall a b, P a -> P b -> ltb a b = false) ->
  filter P (Spec.isort ltb l) = filter P l.
Proof.
  intros HP. induction l as [|x l IH]; simpl; [reflexivity|].
  rewrite (insert_stable P _ _ HP), !filter_cons, IH. reflexivity.
Qed.

End SortFacts.

(** ** The ordering filter *)

Section GroupOrder.

Lemma in_group_order g :
  In g ICON_GROUP_ORDER ->
  g = "small" \/ g = "medium" \/ g = "large" \/ g = "cover"
  \/ g = "notification".
Proof. unfold ICON_GROUP_ORDER. simpl. intuition auto. Qed.

(** On canonical groups the comparator never raises and compares ranks. *)
Lemma cmp_groups_rank a b :
  In a ICON_GROUP_ORDER -> In b ICON_GROUP_ORDER ->
  Py.cmp_to_key cmp_groups a b = inr (Spec.rank a <? Spec.rank b)%nat.
Proof.
  intros Ha%in_group_order Hb%in_group_order.
  destruct Ha as [->|[->|[->|[->| ->]]]];
    destruct Hb as [->|[->|[->|[->| ->]]]]; reflexivity.
Qed.

Lemma rank_inj a b :
  In a ICON_GROUP_ORDER -> In b ICON_GROUP_ORDER ->
  Spec.rank a = Spec.rank b -> a = b.
Proof.
  intros Ha%in_group_order Hb%in_group_order.
  destruct Ha as [->|[->|[->|[->| ->]]]];
    destruct Hb as [->|[->|[->|[->| ->]]]];
    vm_compute; congruence.
Qed.

Lemma group_order_sorted : StronglySorted Spec.rank_lt ICON_GROUP_ORDER.
Proof.
  unfold ICON_GROUP_ORDER, Spec.rank_lt.
  repeat (constructor; [|repeat constructor; vm_compute; lia]).
  constructor.
Qed.

Lemma filter_ext_in (P Q : string -> Prop)
  `{!forall x, Decision (P x)} `{!forall x, Decision (Q x)} (l : list string) :
  (forall x, In x l -> P x <-> Q x) -> filter P l = filter Q l.
Proof.
  induction l as [|x l IH]; intros Hext; [reflexivity|].
  rewrite !filter_cons, IH by (intros; apply Hext; now right).
  pose proof (Hext x (or_introl eq_refl)) as Hx.
  destruct (decide (P x)), (decide (Q x)); try reflexivity; tauto.
Qed.

(** A strictly ordered list drawn from a strictly ordered list [C] is
    [C] filtered by membership. *)
Lemma strictly_sorted_filter (C : list string) :
  StronglySorted Spec.rank_lt C ->
  forall l, StronglySorted Spec.rank_lt l ->
  (forall x, In x l -> In x C) ->
  l = filter (fun g => g ∈ l) C.
Proof.
  unfold Spec.rank_lt.
  induction 1 as [|c C HC IH Hc]; intros l Hl Hsub.
  - destruct l as [|x l]; [reflexivity|].
    destruct (Hsub x (or_introl eq_refl)).
  - rewrite List.Forall_forall in Hc. rewrite filter_cons.
    destruct l as [|x l].
    + rewrite decide_False by apply not_elem_of_nil.
      apply IH; [constructor | intros ? []].
    + inversion Hl as [|? ? Hl' Hx]; subst.
      rewrite List.Forall_forall in Hx.
      destruct (string_dec x c) as [->|Hne].
      * rewrite decide_True by apply list_elem_of_here. f_equal.
        rewrite (IH l Hl') at 1.
        -- apply filter_ext_in. intros y Hy.
           rewrite elem_of_cons. specialize (Hc y Hy).
           split; [tauto|]. intros [Heq|]; [subst y; lia | assumption].
        -- intros y Hy. specialize (Hx y Hy).
           destruct (Hsub y (or_intror Hy)) as [Heq|]; [|assumption].
           subst y. lia.
      * assert (Hxc : Spec.rank c < Spec.rank x).
        { destruct (Hsub x (or_introl eq_refl)) as [->|Hin]; [congruence|].
          now apply Hc. }
        rewrite decide_False.
        -- apply IH; [exact Hl|]. intros y Hy.
           destruct (Hsub y Hy) as [Heq|]; [|assumption].
           subst y. destruct Hy as [Heq|Hy]; [congruence|].
           specialize (Hx c Hy). lia.
        -- rewrite list_elem_of_In. intros [->|Hin]; [congruence|].
           specialize (Hx c Hin). lia.
Qed.

Lemma sorted_nodup_strict (l : list string) :
  StronglySorted Spec.rank_le l -> NoDup l ->
  (forall x, In x l -> In x ICON_GROUP_ORDER) ->
  StronglySorted Spec.rank_lt l.
Proof.
  unfold Spec.rank_le, Spec.rank_lt.
  induction 1 as [|x l Hs IH Hx]; intros Hnd Hsub; [constructor|].
  apply NoDup_cons in Hnd as [Hnotin Hnd].
  constructor; [apply IH; [exact Hnd | intros; apply Hsub; now right]|].
  rewrite List.Forall_forall in *. intros y Hy.
  specialize (Hx y Hy).
  assert (Spec.rank x <> Spec.rank y); [|lia].
  intros Heq. apply rank_inj in Heq;
    [| apply Hsub; now left | apply Hsub; now right].
  subst y. apply Hnotin. now apply list_elem_of_In.
Qed.

Lemma StronglySorted_impl {A} (R1 R2 : A -> A -> Prop) (l : list A) :
  (forall x y, R1 x y -> R2 x y) ->
  StronglySorted R1 l -> StronglySorted R2 l.
Proof.
  intros HR. induction 1 as [|x l Hs IH Hx]; constructor; [exact IH|].
  eapply List.Forall_impl; [apply HR | exact Hx].
Qed.

Lemma isort_rank_sorted (l : list string) :
  StronglySorted Spec.rank_le
    (Spec.isort (fun a b => Spec.rank a <? Spec.rank b)%nat l).
Proof.
  eapply StronglySorted_impl; [|apply isort_StronglySorted].
  - unfold Spec.rank_le. intros x y H. apply Nat.ltb_ge in H. exact H.
  - intros x y z Hxy Hyz. apply Nat.ltb_ge in Hxy, Hyz. apply Nat.ltb_ge. lia.
  - intros x y Hxy. apply Nat.ltb_lt in Hxy. apply Nat.ltb_ge. lia.
Qed.

End GroupOrder.

(** C7. For every list of distinct names taken from small, medium, large,
    cover and notification, in any order, [icon_group_order] returns
    normally, and its result holds the same names arranged in the
    canonical order: it is [ICON_GROUP_ORDER] restricted to the names of
    the list. *)
Theorem icon_group_order_canonical (items : list string) :
  NoDup items ->
  (forall g, In g items -> In g ICON_GROUP_ORDER) ->
  exists ordered,
    icon_group_order items = inr ordered /\
    Permutation ordered items /\
    StronglySorted Spec.rank_lt ordered /\
    ordered = filter (fun g => g ∈ items) ICON_GROUP_ORDER.
Proof.
  intros Hnd Hsub.
  set (ordered := Spec.isort (fun a b => Spec.rank a <? Spec.rank b)%nat items).
  assert (Hperm : Permutation ordered items) by apply isort_perm.
  assert (Hin : forall g, In g ordered -> In g ICON_GROUP_ORDER).
  { intros g Hg. apply Hsub. eapply Permutation_in; eassumption. }
  assert (Hstrict : StronglySorted Spec.rank_lt ordered).
  { apply sorted_nodup_strict; [apply isort_rank_sorted | | exact Hin].
    now rewrite Hperm. }
  exists ordered. split; [|split; [exact Hperm | split; [exact Hstrict|]]].
  - unfold icon_group_order. apply sort_total.
    intros x y Hx Hy. apply cmp_groups_rank; auto.
  - rewrite (strictly_sorted_filter _ group_order_sorted ordered Hstrict Hin) at 1.
    apply filter_ext_in. intros g _. rewrite !list_elem_of_In.
    split; apply Permutation_in; [exact Hperm | symmetry; exact Hperm].
Qed.

Lemma icon_group_order_canonical_witness :
  NoDup ["cover"; "small"; "notification"; "medium"] /\
  (forall g, In g ["cover"; "small"; "notification"; "medium"] ->
             In g ICON_GROUP_ORDER) /\
  exists ordered,
    icon_group_order ["cover"; "small"; "notification"; "medium"]
      = inr ordered /\
    Permutation ordered ["cover"; "small"; "notification"; "medium"] /\
    StronglySorted Spec.rank_lt ordered /\
    ordered = filter (fun g => g ∈ ["cover"; "small"; "notification"; "medium"])
                ICON_GROUP_ORDER.
Proof.
  assert (Hnd : NoDup ["cover"; "small"; "notification"; "medium"]).
  { repeat (apply NoDup_cons; split;
            [rewrite list_elem_of_In; simpl; intuition discriminate|]).
    apply NoDup_nil. trivial. }
  assert (Hsub : forall g, In g ["cover"; "small"; "notification"; "medium"] ->
                           In g ICON_GROUP_ORDER).
  { unfold ICON_GROUP_ORDER. simpl. intuition auto. }
  split; [exact Hnd|]. split; [exact Hsub|].
  apply (icon_group_order_canonical
           ["cover"; "small"; "notification"; "medium"] Hnd Hsub).
Defined.

(** ** The icon index *)

Section GetIcons.
Variables (w : World) (result_dir : string).

Lemma rsplit1_head c s : exists h t, Py.rsplit1 c s = h :: t.
Proof.
  induction s as [|x s (h & t & IH)]; simpl; [eauto|].
  rewrite IH. destruct t; [destruct (Ascii.eqb x c)|]; eauto.
Qed.

Lemma token_None s : Spec.token s = None <-> Py.contains "-" s = false.
Proof.
  unfold Spec.token. rewrite <- after_first_None.
  destruct (Spec.after_first "-" s); simpl; split; congruence.
Qed.

(** A record is built exactly for the base names that hold a dash. *)
Lemma icon_details_spec fname :
  icon_details w fname result_dir =
  match Spec.token (Spec.icon_name_of fname) with
  | Some tok =>
      inr {| name := Spec.icon_name_of fname;
             group := Spec.category tok;
             relpath := os_relpath w fname result_dir |}
  | None => inl Py.IndexError
  end.
Proof.
  unfold icon_details, Spec.icon_name_of.
  destruct (rsplit1_head "." (PosixPath.basename fname)) as (h & t & ->).
  cbn [Py.getitem nth_error Py.ret Py.bind].
  rewrite icon_group_token.
  destruct (Spec.token h) as [tok|]; reflexivity.
Qed.

Lemma icon_details_raises fname :
  Spec.has_dash fname = false ->
  icon_details w fname result_dir = inl Py.IndexError.
Proof.
  intros H. apply token_None in H. now rewrite icon_details_spec, H.
Qed.

Lemma icon_details_returns fname :
  Spec.has_dash fname = true ->
  exists d, icon_details w fname result_dir = inr d.
Proof.
  intros H. rewrite icon_details_spec.
  destruct (Spec.token _) as [tok|] eqn:E; [eauto|].
  apply token_None in E. unfold Spec.has_dash in H. congruence.
Qed.

(** The records of a list of files are built exactly when each base
    name holds a dash; otherwise the scan raises [IndexError]. *)
Lemma records_returns fnames :
  forallb Spec.has_dash fnames = true ->
  exists ds, Spec.records w result_dir fnames = inr ds.
Proof.
  induction fnames as [|f fnames IH]; simpl; [eauto|].
  intros [Hf Hrest]%andb_prop.
  destruct (icon_details_returns f Hf) as [d ->].
  destruct (IH Hrest) as [ds ->]. cbn. eauto.
Qed.

Lemma records_raises fnames :
  forallb Spec.has_dash fnames = false ->
  Spec.records w result_dir fnames = inl Py.IndexError.
Proof.
  induction fnames as [|f fnames IH]; simpl; [discriminate|].
  destruct (Spec.has_dash f) eqn:Hf; simpl.
  - intros Hrest. destruct (icon_details_returns f Hf) as [d ->].
    rewrite (IH Hrest). reflexivity.
  - intros _. now rewrite (icon_details_raises f Hf).
Qed.

Lemma records_app l1 l2 :
  Spec.records w result_dir (l1 ++ l2)%list =
  do a <- Spec.records w result_dir l1;
  do b <- Spec.records w result_dir l2;
  Py.ret (a ++ b)%list.
Proof.
  induction l1 as [|f l1 IH]; simpl.
  - destruct (Spec.records w result_dir l2); reflexivity.
  - destruct (icon_details w f result_dir); [reflexivity|]. cbn [Py.bind].
    rewrite IH. destruct (Spec.records w result_dir l1); [reflexivity|].
    cbn [Py.bind]. destruct (Spec.records w result_dir l2); reflexivity.
Qed.

(** The body of the inner loop adds one record for an icon file and
    skips every other file. *)
Lemma get_icons_file_spec root icons filename :
  get_icons_file w result_dir root icons filename =
  if Spec.is_svg (PosixPath.join root filename)
  then do d <- icon_details w (PosixPath.join root filename) result_dir;
       Py.ret (Spec.add_record icons d)
  else Py.ret icons.
Proof.
  unfold get_icons_file, Spec.is_svg.
  destruct (Py.endswith _ _); [|reflexivity].
  destruct (icon_details _ _ _) as [e|d]; [reflexivity|].
  cbn [Py.bind]. unfold Py.ret, Spec.add_record. f_equal.
  destruct (icons !! group d) as [l|] eqn:E.
  - rewrite (lookup_total_correct _ _ _ E). reflexivity.
  - rewrite lookup_total_insert_eq, insert_insert_eq. reflexivity.
Qed.

Lemma inner_loop_spec root files icons :
  Py.for_each (get_icons_file w result_dir root) files icons =
  do ds <- Spec.records w result_dir
             (List.filter Spec.is_svg (map (PosixPath.join root) files));
  Py.ret (fold_left Spec.add_record ds icons).
Proof.
  revert icons. induction files as [|f files IH]; intros icons;
    [reflexivity|].
  cbn [Py.for_each map List.filter]. rewrite get_icons_file_spec.
  destruct (Spec.is_svg (PosixPath.join root f)).
  - cbn [Spec.records].
    destruct (icon_details _ _ _) as [e|d]; [reflexivity|].
    cbn [Py.bind Py.ret]. rewrite IH.
    destruct (Spec.records _ _ _); reflexivity.
  - cbn [Py.bind Py.ret]. apply IH.
Qed.

Lemma outer_loop_spec (triples : list (string * list string * list string))
  icons :
  Py.for_each
    (fun icons '(root, dirs, files) =>
       Py.for_each (get_icons_file w result_dir root) files icons)
    triples icons =
  do ds <- Spec.records w result_dir
             (flat_map (fun '(root, _, files) =>
                List.filter Spec.is_svg (map (PosixPath.join root) files))
                triples);
  Py.ret (fold_left Spec.add_record ds icons).
Proof.
  revert icons. induction triples as [|[[root dirs] files] triples IH];
    intros icons; [reflexivity|].
  cbn [Py.for_each flat_map]. rewrite inner_loop_spec, records_app.
  destruct (Spec.records _ _ (List.filter _ _)) as [e|ds]; [reflexivity|].
  cbn [Py.bind Py.ret]. rewrite IH.
  destruct (Spec.records _ _ _) as [e|ds']; [reflexivity|].
  cbn [Py.bind Py.ret]. now rewrite fold_left_app.
Qed.

(** What the first loop stores under a group: the records of that
    group, in discovery order, after what was there. *)
Lemma lookup_add_records (ds : list IconDetails) icons g :
  fold_left Spec.add_record ds icons !! g =
  match filter (fun d => group d = g) ds with
  | [] => icons !! g
  | l => Some (default [] (icons !! g) ++ l)%list
  end.
Proof.
  revert icons. induction ds as [|d ds IH]; intros icons; [reflexivity|].
  cbn [fold_left]. rewrite IH, filter_cons. unfold Spec.add_record.
  destruct (decide (group d = g)) as [<-|Hne].
  - rewrite lookup_insert_eq. cbn [default from_option]. unfold id.
    destruct (filter _ ds); [reflexivity|].
    now rewrite <- app_assoc.
  - rewrite lookup_insert_ne by exact Hne. reflexivity.
Qed.

(** The second loop replaces each group by its sorted list. *)
Lemma sorted_by_key_name (l : list IconDetails) :
  Py.sorted_by_key name l = inr (Spec.sort_by_name l).
Proof. unfold Py.sorted_by_key. now apply sort_total. Qed.

Lemma sort_loop_spec (keys : list string) icons :
  Py.for_each get_icons_sort_group keys icons =
  inr (fold_left (fun m k => <[k := Spec.sort_by_name (m !!! k)]> m) keys icons).
Proof.
  revert icons. induction keys as [|k keys IH]; intros icons; [reflexivity|].
  cbn [Py.for_each fold_left]. unfold get_icons_sort_group at 1.
  rewrite sorted_by_key_name. cbn [Py.bind Py.ret]. apply IH.
Qed.

Lemma lookup_sort_loop (keys : list string)
  (icons : gmap string (list IconDetails)) g :
  NoDup keys ->
  fold_left (fun m k => <[k := Spec.sort_by_name (m !!! k)]> m) keys icons !! g =
  if decide (g ∈ keys) then Some (Spec.sort_by_name (icons !!! g))
  else icons !! g.
Proof.
  intros Hnd. revert icons.
  induction Hnd as [|k keys Hk Hnd IH]; intros icons.
  - cbn [fold_left]. now rewrite decide_False by apply not_elem_of_nil.
  - cbn [fold_left]. rewrite IH.
    destruct (decide (g = k)) as [->|Hne].
    + rewrite (decide_False (P := k ∈ keys)) by exact Hk.
      rewrite (decide_True (P := k ∈ k :: keys)) by apply list_elem_of_here.
      apply lookup_insert_eq.
    + rewrite lookup_insert_ne, lookup_total_insert_ne by congruence.
      destruct (decide (g ∈ keys)) as [Hin|Hnin].
      * rewrite (decide_True (P := g ∈ k :: keys))
          by now apply list_elem_of_further.
        reflexivity.
      * rewrite (decide_False (P := g ∈ k :: keys)); [reflexivity|].
        rewrite elem_of_cons. tauto.
Qed.

Lemma sort_all_groups (icons : gmap string (list IconDetails)) :
  fold_left (fun m k => <[k := Spec.sort_by_name (m !!! k)]> m)
    (map_to_list icons).*1 icons
  = Spec.sort_by_name <$> icons.
Proof.
  apply map_eq. intros g.
  rewrite lookup_sort_loop by apply NoDup_fst_map_to_list.
  rewrite lookup_fmap.
  destruct (icons !! g) as [l|] eqn:E.
  - rewrite decide_True.
    + now rewrite (lookup_total_correct _ _ _ E).
    + apply list_elem_of_fmap. exists (g, l). split; [reflexivity|].
      now apply elem_of_map_to_list.
  - rewrite decide_False; [reflexivity|].
    intros ([g' l] & -> & Hin)%list_elem_of_fmap.
    apply elem_of_map_to_list in Hin. simpl in E. congruence.
Qed.

(** [get_icons] builds the records of the scan in discovery order,
    files them by group, and sorts each group by name. *)
Lemma get_icons_spec icons_path :
  get_icons w icons_path result_dir =
  do recs <- Spec.discovered w icons_path result_dir;
  Py.ret (Spec.sort_by_name <$> fold_left Spec.add_record recs ∅).
Proof.
  unfold get_icons, Spec.discovered, Spec.svg_files.
  rewrite outer_loop_spec.
  destruct (Spec.records _ _ _) as [e|recs]; [reflexivity|].
  cbn [Py.bind Py.ret]. rewrite sort_loop_spec, sort_all_groups. reflexivity.
Qed.

Lemma get_icons_lookup icons_path icons :
  get_icons w icons_path result_dir = inr icons ->
  exists recs,
    Spec.discovered w icons_path result_dir = inr recs /\
    forall g, icons !! g =
      match filter (fun d => group d = g) recs with
      | [] => None
      | l => Some (Spec.sort_by_name l)
      end.
Proof.
  rewrite get_icons_spec.
  destruct (Spec.discovered _ _ _) as [e|recs]; [discriminate|].
  cbn [Py.bind Py.ret]. intros [= <-]. exists recs. split; [reflexivity|].
  intros g. rewrite lookup_fmap, lookup_add_records, lookup_empty.
  destruct (filter _ recs); reflexivity.
Qed.

(** [get_icons] returns exactly when every scanned icon file has a dash
    in its base name, and raises [IndexError] otherwise. *)
Lemma get_icons_returns icons_path :
  forallb Spec.has_dash (Spec.svg_files w icons_path) = true ->
  exists icons, get_icons w icons_path result_dir = inr icons.
Proof.
  intros H. rewrite get_icons_spec. unfold Spec.discovered.
  destruct (records_returns _ H) as [ds ->]. cbn. eauto.
Qed.

Lemma get_icons_raises icons_path :
  forallb Spec.has_dash (Spec.svg_files w icons_path) = false ->
  get_icons w icons_path result_dir = inl Py.IndexError.
Proof.
  intros H. rewrite get_icons_spec. unfold Spec.discovered.
  now rewrite (records_raises _ H).
Qed.

End GetIcons.

(** ** Order of names *)

Section NameOrder.

Lemma string_ltb_leb s1 s2 :
  String.ltb s2 s1 = false <-> String.leb s1 s2 = true.
Proof.
  unfold String.ltb, String.leb. rewrite (String.compare_antisym s1 s2).
  destruct (String.compare s2 s1); simpl; split; congruence.
Qed.

Lemma string_ltb_irrefl s : String.ltb s s = false.
Proof.
  unfold String.ltb. pose proof (String.compare_antisym s s) as H.
  revert H. destruct (String.compare s s); simpl; congruence.
Qed.

Lemma string_ltb_asym s1 s2 :
  String.ltb s1 s2 = true -> String.ltb s2 s1 = false.
Proof.
  unfold String.ltb. rewrite (String.compare_antisym s2 s1).
  destruct (String.compare s1 s2); simpl; congruence.
Qed.

Lemma string_leb_trans s1 s2 s3 :
  String.leb s1 s2 = true -> String.leb s2 s3 = true ->
  String.leb s1 s3 = true.
Proof.
  intros H12%Is_true_true H23%Is_true_true. apply Is_true_true.
  change (String.le s1 s3). transitivity s2; assumption.
Qed.

Lemma sort_by_name_sorted (l : list IconDetails) :
  StronglySorted Spec.name_le (Spec.sort_by_name l).
Proof.
  unfold Spec.sort_by_name.
  eapply StronglySorted_impl; [|apply isort_StronglySorted].
  - intros x y H. apply string_ltb_leb in H. exact H.
  - intros x y z Hxy%string_ltb_leb Hyz%string_ltb_leb.
    apply string_ltb_leb. eapply string_leb_trans; eassumption.
  - intros x y. apply string_ltb_asym.
Qed.

Lemma sort_by_name_perm (l : list IconDetails) :
  Permutation (Spec.sort_by_name l) l.
Proof. apply isort_perm. Qed.

Lemma sort_by_name_stable (l : list IconDetails) (n : string) :
  filter (fun d => name d = n) (Spec.sort_by_name l)
  = filter (fun d => name d = n) l.
Proof.
  apply (isort_stable _ (fun d => name d = n)).
  intros a b -> ->. apply string_ltb_irrefl.
Qed.

End NameOrder.

(** C8. Every scan whose icon files all have a dash in the base name
    yields an index, and no other scan does.  In every index that a scan
    yields, each group is in ascending order of names under lexicographic
    comparison; it holds the records discovered for that group, all of
    them; records of the same name stay in their order of discovery. *)
Theorem get_icons_sorted_stable (w : World) (icons_path result_dir : string) :
  ((exists icons, get_icons w icons_path result_dir = inr icons) <->
   forallb Spec.has_dash (Spec.svg_files w icons_path) = true) /\
  forall icons, get_icons w icons_path result_dir = inr icons ->
    exists recs,
      Spec.discovered w icons_path result_dir = inr recs /\
      forall g l, icons !! g = Some l ->
        StronglySorted Spec.name_le l /\
        Permutation l (filter (fun d => group d = g) recs) /\
        forall n,
          filter (fun d => name d = n) l
          = filter (fun d => name d = n) (filter (fun d => group d = g) recs).
Proof.
  split.
  - split.
    + intros [icons H].
      destruct (forallb _ _) eqn:E; [reflexivity|].
      rewrite (get_icons_raises w result_dir _ E) in H. discriminate.
    + apply get_icons_returns.
  - intros icons H.
    destruct (get_icons_lookup _ _ _ _ H) as (recs & Hrecs & Hlookup).
    exists recs. split; [exact Hrecs|]. intros g l Hl.
    rewrite Hlookup in Hl.
    destruct (filter (fun d => group d = g) recs) as [|d ds];
      [discriminate|].
    assert (l = Spec.sort_by_name (d :: ds)) as -> by congruence.
    split; [apply sort_by_name_sorted|].
    split; [apply sort_by_name_perm | intros n; apply sort_by_name_stable].
Qed.

Lemma get_icons_sorted_stable_witness :
  get_icons Sample.world_nested "/icons" "/out" = inr Sample.nested_index /\
  exists recs,
    Spec.discovered Sample.world_nested "/icons" "/out" = inr recs /\
    forall g l, Sample.nested_index !! g = Some l ->
      StronglySorted Spec.name_le l /\
      Permutation l (filter (fun d => group d = g) recs) /\
      forall n,
        filter (fun d => name d = n) l
        = filter (fun d => name d = n) (filter (fun d => group d = g) recs).
Proof.
  assert (H : get_icons Sample.world_nested "/icons" "/out"
              = inr Sample.nested_index) by (vm_compute; reflexivity).
  split; [exact H|].
  exact (proj2 (get_icons_sorted_stable Sample.world_nested "/icons" "/out")
           Sample.nested_index H).
Defined.

(** C10. In every index that [get_icons] returns, a group is a key
    exactly when some discovered record was classified into it, no key
    maps to an empty list, and every record stored under a key is a
    discovered record whose group is that key. *)
Theorem get_icons_index_invariant (w : World) (icons_path result_dir : string) :
  forall icons, get_icons w icons_path result_dir = inr icons ->
    exists recs,
      Spec.discovered w icons_path result_dir = inr recs /\
      forall g,
        (is_Some (icons !! g) <-> exists d, d ∈ recs /\ group d = g) /\
        forall l, icons !! g = Some l ->
          l <> [] /\ forall d, d ∈ l -> group d = g /\ d ∈ recs.
Proof.
  intros icons H.
  destruct (get_icons_lookup _ _ _ _ H) as (recs & Hrecs & Hlookup).
  exists recs. split; [exact Hrecs|]. intros g. rewrite Hlookup.
  destruct (filter (fun d => group d = g) recs) as [|d ds] eqn:E.
  - split.
    + split; [intros [? [=]]|]. intros (d & Hd & Hg).
      assert (Hin : d ∈ filter (fun d => group d = g) recs)
        by (apply list_elem_of_filter; auto).
      rewrite E in Hin. now apply not_elem_of_nil in Hin.
    + intros l [=].
  - assert (Hfilter : forall x, x ∈ d :: ds -> group x = g /\ x ∈ recs).
    { intros x Hx. rewrite <- E in Hx. now apply list_elem_of_filter in Hx. }
    split.
    + split; [|eauto]. intros _. exists d.
      destruct (Hfilter d) as [? ?]; [apply list_elem_of_here | auto].
    + intros l Hl.
      assert (l = Spec.sort_by_name (d :: ds)) as -> by congruence.
      split.
      * intros Hnil.
        pose proof (Permutation_length (sort_by_name_perm (d :: ds))) as Hlen.
        rewrite Hnil in Hlen. discriminate.
      * intros x Hx. apply Hfilter. now rewrite <- (sort_by_name_perm (d :: ds)).
Qed.

Lemma get_icons_index_invariant_witness :
  get_icons Sample.world_nested "/icons" "/out" = inr Sample.nested_index /\
  exists recs,
    Spec.discovered Sample.world_nested "/icons" "/out" = inr recs /\
    forall g,
      (is_Some (Sample.nested_index !! g)
       <-> exists d, d ∈ recs /\ group d = g) /\
      forall l, Sample.nested_index !! g = Some l ->
        l <> [] /\ forall d, d ∈ l -> group d = g /\ d ∈ recs.
Proof.
  assert (H : get_icons Sample.world_nested "/icons" "/out"
              = inr Sample.nested_index) by (vm_compute; reflexivity).
  split; [exact H|].
  exact (get_icons_index_invariant Sample.world_nested "/icons" "/out"
           Sample.nested_index H).
Defined.

(** * Further properties *)

(** ** Rows of the chunking filter *)

(** X1. [split_by] yields nothing exactly when the sequence is empty or
    the row length is [0]. *)
Theorem split_by_empty_iff {A : Type} (entries : list A) (n : nat) :
  split_by entries n = [] <-> entries = [] \/ n = 0.
Proof.
  split.
  - intros H. destruct entries as [|x entries]; [now left|].
    destruct n as [|n]; [now right|].
    rewrite split_by_cons in H by lia. discriminate.
  - intros [->| ->]; [apply split_by_nil|].
    rewrite split_by_step. reflexivity.
Qed.

(** X2. Row [i] of [split_by] is the slice [entries[i*n : i*n + n]] as long
    as it starts inside the sequence; there is no row further on. *)
Theorem split_by_row {A : Type} (entries : list A) (n i : nat) :
  1 <= n ->
  split_by entries n !! i =
  if (i * n <? length entries)%nat
  then Some (firstn n (skipn (i * n) entries))
  else None.
Proof.
  intros Hn. revert entries. induction i as [|i IH]; intros entries.
  - destruct entries as [|x entries]; [now rewrite split_by_nil|].
    rewrite split_by_cons by exact Hn. reflexivity.
  - destruct entries as [|x entries].
    { rewrite split_by_nil. simpl. reflexivity. }
    rewrite split_by_cons by exact Hn.
    change ((firstn n (x :: entries) :: split_by (skipn n (x :: entries)) n)
              !! S i)
      with (split_by (skipn n (x :: entries)) n !! i).
    rewrite IH, length_skipn, skipn_skipn.
    replace (i * n + n) with (S i * n) by lia.
    destruct (i * n <? length (x :: entries) - n)%nat eqn:E1;
      destruct (S i * n <? length (x :: entries))%nat eqn:E2;
      try reflexivity;
      [apply Nat.ltb_lt in E1; apply Nat.ltb_ge in E2
      |apply Nat.ltb_ge in E1; apply Nat.ltb_lt in E2]; lia.
Qed.

Lemma split_by_row_witness :
  1 <= 3 /\
  split_by [10; 20; 30; 40; 50; 60; 70] 3 !! 1 =
  if (1 * 3 <? length [10; 20; 30; 40; 50; 60; 70])%nat
  then Some (firstn 3 (skipn (1 * 3) [10; 20; 30; 40; 50; 60; 70]))
  else None.
Proof.
  split; [lia|]. apply (split_by_row [10; 20; 30; 40; 50; 60; 70] 3 1). lia.
Defined.

(** X3. When the length of a sequence is a multiple of the row length,
    the rows of the sequence followed by another are the rows of the one
    followed by the rows of the other. *)
Theorem split_by_app {A : Type} (l1 l2 : list A) (n k : nat) :
  length l1 = k * n ->
  split_by (l1 ++ l2) n = (split_by l1 n ++ split_by l2 n)%list.
Proof.
  revert l1. induction k as [|k IH]; intros l1 Hlen.
  - destruct l1; [|discriminate]. now rewrite split_by_nil.
  - destruct n as [|n].
    { destruct l1; [now rewrite split_by_nil | simpl in Hlen; lia]. }
    destruct l1 as [|x l1]; [simpl in Hlen; lia|].
    rewrite (split_by_cons x l1) by lia.
    change ((x :: l1) ++ l2)%list with (x :: (l1 ++ l2))%list.
    rewrite split_by_cons by lia.
    change (x :: (l1 ++ l2))%list with ((x :: l1) ++ l2)%list.
    assert (Hle : S n <= length (x :: l1)) by (rewrite Hlen; lia).
    rewrite take_app_le, drop_app_le by exact Hle.
    rewrite <- app_comm_cons. f_equal. apply IH.
    rewrite length_skipn, Hlen. lia.
Qed.

Lemma split_by_app_witness :
  length [1; 2; 3; 4] = 2 * 2 /\
  split_by ([1; 2; 3; 4] ++ [5; 6; 7]) 2
  = (split_by [1; 2; 3; 4] 2 ++ split_by [5; 6; 7] 2)%list.
Proof.
  split; [reflexivity|]. apply (split_by_app [1; 2; 3; 4] [5; 6; 7] 2 2).
  reflexivity.
Defined.

(** ** The comparator and the ordering filter on arbitrary names *)

Section Comparator.

Lemma index_not_in g l : ~ In g l -> Py.index g l = inl Py.ValueError.
Proof.
  induction l as [|y l IH]; intros H; simpl; [reflexivity|].
  destruct (String.eqb_spec y g) as [->|Hne].
  - destruct H. now left.
  - rewrite IH; [reflexivity|]. intros Hin. apply H. now right.
Qed.

Lemma index_in g l : In g l -> exists i, Py.index g l = inr i.
Proof.
  induction l as [|y l IH]; [intros []|]. intros H. simpl.
  destruct (String.eqb_spec y g) as [->|Hne]; [eauto|].
  destruct H as [?|H]; [congruence|].
  destruct (IH H) as [i ->]. cbn. eauto.
Qed.

Lemma canonical_In g : Spec.canonical g = true <-> In g ICON_GROUP_ORDER.
Proof.
  unfold Spec.canonical. rewrite bool_decide_eq_true. apply list_elem_of_In.
Qed.

Lemma canonical_false g : Spec.canonical g = false -> ~ In g ICON_GROUP_ORDER.
Proof.
  intros H Hin. apply canonical_In in Hin. congruence.
Qed.

Lemma cmp_groups_not_canonical a b :
  Spec.canonical a && Spec.canonical b = false ->
  cmp_groups a b = inl Py.ValueError.
Proof.
  intros H. unfold cmp_groups.
  destruct (Spec.canonical a) eqn:Ea.
  - apply canonical_In, index_in in Ea as [i ->]. cbn [Py.bind].
    simpl in H. apply canonical_false in H. now rewrite (index_not_in _ _ H).
  - apply canonical_false in Ea. now rewrite (index_not_in _ _ Ea).
Qed.

Lemma cmp_to_key_inr a b r :
  Py.cmp_to_key cmp_groups a b = inr r ->
  In a ICON_GROUP_ORDER /\ In b ICON_GROUP_ORDER.
Proof.
  unfold Py.cmp_to_key. intros H.
  destruct (Spec.canonical a && Spec.canonical b) eqn:E.
  - apply andb_prop in E as [Ha Hb]. split; now apply canonical_In.
  - rewrite (cmp_groups_not_canonical _ _ E) in H. discriminate.
Qed.

Lemma cmp_to_key_inl a b e :
  Py.cmp_to_key cmp_groups a b = inl e -> e = Py.ValueError.
Proof.
  unfold Py.cmp_to_key. intros H.
  destruct (Spec.canonical a && Spec.canonical b) eqn:E.
  - apply andb_prop in E as [Ha%canonical_In Hb%canonical_In].
    pose proof (cmp_groups_rank a b Ha Hb) as Hr.
    unfold Py.cmp_to_key in Hr. rewrite Hr in H. discriminate.
  - rewrite (cmp_groups_not_canonical _ _ E) in H. cbn in H. congruence.
Qed.

Lemma insert_sorted_length {A} (lt : A -> A -> Py.result bool) x l s :
  Py.insert_sorted lt x l = inr s -> length s = S (length l).
Proof.
  revert s. induction l as [|y l IH]; intros s; simpl.
  - intros [= <-]. reflexivity.
  - destruct (lt y x) as [e|[]]; cbn [Py.bind]; [discriminate| |].
    + destruct (Py.insert_sorted lt x l) as [e|r]; [discriminate|].
      cbn. intros [= <-]. simpl. f_equal. now apply IH.
    + intros [= <-]. reflexivity.
Qed.

Lemma sort_length {A} (lt : A -> A -> Py.result bool) l s :
  Py.sort lt l = inr s -> length s = length l.
Proof.
  revert s. induction l as [|x l IH]; intros s; simpl.
  - intros [= <-]. reflexivity.
  - destruct (Py.sort lt l) as [e|s0]; [discriminate|]. cbn [Py.bind].
    intros H%insert_sorted_length. rewrite H. f_equal. now apply IH.
Qed.

Lemma insert_sorted_inl x l e :
  Py.insert_sorted (Py.cmp_to_key cmp_groups) x l = inl e -> e = Py.ValueError.
Proof.
  induction l as [|y l IH]; simpl; [discriminate|].
  destruct (Py.cmp_to_key cmp_groups y x) as [e'|[]] eqn:E; cbn [Py.bind].
  - intros [= <-]. now apply cmp_to_key_inl in E.
  - destruct (Py.insert_sorted _ x l) as [e'|r]; [|discriminate].
    cbn. intros [= <-]. now apply IH.
  - discriminate.
Qed.

Lemma icon_group_order_inl items e :
  icon_group_order items = inl e -> e = Py.ValueError.
Proof.
  unfold icon_group_order. induction items as [|x l IH]; simpl; [discriminate|].
  destruct (Py.sort _ l) as [e'|s0]; cbn [Py.bind].
  - intros [= <-]. now apply IH.
  - apply insert_sorted_inl.
Qed.

(** A sort of two names or more that returns has compared every name. *)
Lemma icon_group_order_inr items s :
  icon_group_order items = inr s -> 2 <= length items ->
  forall g, In g items -> In g ICON_GROUP_ORDER.
Proof.
  unfold icon_group_order. revert s.
  induction items as [|x l IH]; intros s; simpl; [lia|].
  destruct (Py.sort _ l) as [e|s0] eqn:Es; [discriminate|]. cbn [Py.bind].
  intros Hins Hlen.
  pose proof (sort_length _ _ _ Es) as Hs0.
  destruct s0 as [|y s0]; [destruct l; simpl in *; lia|].
  simpl in Hins.
  destruct (Py.cmp_to_key cmp_groups y x) as [e|b] eqn:E; [discriminate|].
  apply cmp_to_key_inr in E as [Hy Hx].
  intros g [<-|Hg]; [exact Hx|].
  destruct l as [|z [|z' l]]; [destruct Hg| |].
  - simpl in Es. injection Es as <- <-. destruct Hg as [<-|[]]. exact Hy.
  - apply (IH (y :: s0)); [reflexivity | simpl; lia | exact Hg].
Qed.

End Comparator.

(** X4. [cmp_groups] raises [ValueError] as soon as one of its two
    arguments is not a name of the canonical order; on two canonical
    names it returns [-1], [0] or [1], the sign of the difference of
    their positions. *)
Theorem cmp_groups_sign (a b : string) :
  cmp_groups a b =
  if Spec.canonical a && Spec.canonical b
  then inr (Z.sgn (Z.of_nat (Spec.rank a) - Z.of_nat (Spec.rank b)))
  else inl Py.ValueError.
Proof.
  destruct (Spec.canonical a && Spec.canonical b) eqn:E.
  - apply andb_prop in E as [Ha%canonical_In%in_group_order
                              Hb%canonical_In%in_group_order].
    destruct Ha as [->|[->|[->|[->| ->]]]];
      destruct Hb as [->|[->|[->|[->| ->]]]]; reflexivity.
  - now apply cmp_groups_not_canonical.
Qed.

(** X5. [icon_group_order] raises exactly when the list has two names or
    more and one of them is not in the canonical order, and what it
    raises is [ValueError]; a list of one name, canonical or not, is
    returned as it is. *)
Theorem icon_group_order_raises_iff (items : list string) :
  (forall e, icon_group_order items = inl e <->
     e = Py.ValueError /\ 2 <= length items /\
     exists g, In g items /\ ~ In g ICON_GROUP_ORDER) /\
  (length items <= 1 -> icon_group_order items = inr items).
Proof.
  split.
  - intros e. split.
    + intros H. split; [now apply icon_group_order_inl in H|].
      destruct items as [|x [|y l]]; [discriminate | discriminate|].
      split; [simpl; lia|].
      destruct (forallb Spec.canonical (x :: y :: l)) eqn:E.
      * rewrite forallb_forall in E.
        assert (Hall : forall g, In g (x :: y :: l) -> In g ICON_GROUP_ORDER)
          by (intros g Hg; now apply canonical_In, E).
        unfold icon_group_order in H.
        rewrite (sort_total (fun a b => Spec.rank a <? Spec.rank b)%nat) in H;
          [discriminate|].
        intros a b Ha Hb. apply cmp_groups_rank; auto.
      * clear H. induction (x :: y :: l) as [|z l' IH]; [discriminate|].
        simpl in E. destruct (Spec.canonical z) eqn:Ez.
        -- destruct (IH E) as (g & Hg & Hn). exists g. split; [now right | exact Hn].
        -- exists z. split; [now left | now apply canonical_false].
    + intros (-> & Hlen & g & Hg & Hn).
      destruct (icon_group_order items) as [e|s] eqn:E.
      * f_equal. now apply icon_group_order_inl in E.
      * destruct Hn. exact (icon_group_order_inr _ _ E Hlen g Hg).
  - intros Hlen. destruct items as [|x [|y l]]; [reflexivity | reflexivity|].
    simpl in Hlen. lia.
Qed.

(** X6. On canonical names, repeated or not, [icon_group_order] returns a
    rearrangement of the list in which positions in the canonical order
    never decrease. *)
Theorem icon_group_order_sorted (items : list string) :
  (forall g, In g items -> In g ICON_GROUP_ORDER) ->
  exists ordered,
    icon_group_order items = inr ordered /\
    Permutation ordered items /\
    StronglySorted Spec.rank_le ordered.
Proof.
  intros Hsub.
  exists (Spec.isort (fun a b => Spec.rank a <? Spec.rank b)%nat items).
  split; [|split; [apply isort_perm | apply isort_rank_sorted]].
  unfold icon_group_order. apply sort_total.
  intros x y Hx Hy. apply cmp_groups_rank; auto.
Qed.

Lemma icon_group_order_sorted_witness :
  (forall g, In g ["cover"; "small"; "cover"; "large"; "small"] ->
             In g ICON_GROUP_ORDER) /\
  exists ordered,
    icon_group_order ["cover"; "small"; "cover"; "large"; "small"]
      = inr ordered /\
    Permutation ordered ["cover"; "small"; "cover"; "large"; "small"] /\
    StronglySorted Spec.rank_le ordered.
Proof.
  assert (Hsub : forall g, In g ["cover"; "small"; "cover"; "large"; "small"] ->
                           In g ICON_GROUP_ORDER).
  { unfold ICON_GROUP_ORDER. simpl. intuition auto. }
  split; [exact Hsub|].
  apply (icon_group_order_sorted
           ["cover"; "small"; "cover"; "large"; "small"] Hsub).
Defined.

(** ** The selected groups *)

(** X7. Whatever the flags, the selection is not empty, has no group
    twice, and holds canonical names only; [notification] is selected
    exactly when no flag is set, and with a flag set a group is selected
    exactly when its own flag is. *)
Theorem get_groups_selection (flags : Namespace) :
  get_groups flags <> [] /\
  NoDup (get_groups flags) /\
  (forall g, In g (get_groups flags) -> In g ICON_GROUP_ORDER) /\
  (In "notification" (get_groups flags) <-> Spec.any_flag flags = false) /\
  (Spec.any_flag flags = true ->
   forall g, In g (get_groups flags) <-> getattr_flag flags g = true).
Proof.
  destruct flags as [i t r s m l c]. unfold Spec.any_flag. cbn [small medium large cover].
  assert (Hflag : forall g, getattr_flag (mkNamespace i t r s m l c) g = true ->
            (g = "small" /\ s = true) \/ (g = "medium" /\ m = true) \/
            (g = "large" /\ l = true) \/ (g = "cover" /\ c = true)).
  { intros g. unfold getattr_flag. cbn [small medium large cover].
    case_tok g; intros H; try discriminate; tauto. }
  destruct s, m, l, c; cbn [orb];
    (split; [discriminate|]);
    (split; [apply NoDup_ListNoDup;
             repeat (constructor; [simpl; intuition discriminate|]);
             constructor|]);
    (split; [intros g Hg; vm_compute in Hg |- *; tauto|]);
    (split; [split; [intros Hn; vm_compute in Hn;
                     try reflexivity; intuition discriminate
                    | intros Hf; try discriminate Hf; vm_compute; tauto]|]);
    intros Hf; try discriminate Hf; intros g;
    (split; [intros Hg; vm_compute in Hg;
             repeat (destruct Hg as [<-|Hg]; [reflexivity|]); destruct Hg
            | intros Hg; apply Hflag in Hg; vm_compute;
              intuition (subst; auto; discriminate)]).
Qed.

(** X8. Passed through [icon_group_order], the selection never raises:
    with a flag set it comes back unchanged, with no flag set it comes
    back as the whole canonical order. *)
Theorem icon_group_order_get_groups (flags : Namespace) :
  icon_group_order (get_groups flags) =
  inr (if Spec.any_flag flags then get_groups flags else ICON_GROUP_ORDER).
Proof.
  destruct flags as [i t r s m l c]. unfold Spec.any_flag.
  cbn [small medium large cover].
  destruct s, m, l, c; reflexivity.
Qed.

(** ** More on the icon index *)

Section IndexFacts.
Variables (w : World) (result_dir : string).

Lemma forallb_false_ex {A} (f : A -> bool) (l : list A) :
  forallb f l = false <-> exists x, In x l /\ f x = false.
Proof.
  induction l as [|y l IH]; simpl.
  - split; [discriminate | intros (x & [] & _)].
  - destruct (f y) eqn:E; simpl.
    + rewrite IH. split.
      * intros (x & Hx & Hf). eauto.
      * intros (x & [<-|Hx] & Hf); [congruence | eauto].
    + split; [eauto | reflexivity].
Qed.

Lemma records_Forall2 fnames recs :
  Spec.records w result_dir fnames = inr recs ->
  Forall2 (Spec.record_of w result_dir) fnames recs.
Proof.
  revert recs. induction fnames as [|f fnames IH]; intros recs; simpl.
  - intros [= <-]. constructor.
  - rewrite icon_details_spec.
    destruct (Spec.token (Spec.icon_name_of f)) as [tok|] eqn:E;
      [|discriminate].
    cbn [Py.bind].
    destruct (Spec.records w result_dir fnames) as [e|ds]; [discriminate|].
    cbn. intros [= <-]. constructor; [|now apply IH].
    unfold Spec.record_of. cbn [name group relpath]. eauto.
Qed.

Lemma category_all_groups tok : In (Spec.category tok) Spec.all_groups.
Proof.
  unfold Spec.category, Spec.all_groups, ICON_GROUP_ORDER.
  case_tok tok; simpl; tauto.
Qed.

Lemma icon_name_of_join root filename :
  Py.contains "/" filename = false ->
  Spec.icon_name_of (PosixPath.join root filename)
  = Spec.icon_name_of filename.
Proof.
  intros H. unfold Spec.icon_name_of.
  now rewrite (basename_join _ _ H), (basename_no_sep _ H).
Qed.

Lemma lower_char_dot c :
  Ascii.eqb (Py.lower_char c) "." = Ascii.eqb c ".".
Proof. destruct c as [[] [] [] [] [] [] [] []]; reflexivity. Qed.

Lemma contains_dot_lower s :
  Py.contains "." (Py.lower s) = Py.contains "." s.
Proof.
  induction s as [|c s IH]; simpl; [reflexivity|].
  now rewrite lower_char_dot, IH.
Qed.

(** An extension that is [.svg] up to case is a dot and three letters. *)
Lemma svg_extension ext :
  Py.lower ext = ".svg" ->
  exists e, ext = String "." e /\ Py.contains "." e = false.
Proof.
  destruct ext as [|c e]; [discriminate|]. simpl. intros [= Hc He].
  exists e. split.
  - f_equal. pose proof (lower_char_dot c) as H. rewrite Hc in H.
    simpl in H. symmetry in H. now apply Ascii.eqb_eq in H.
  - rewrite <- contains_dot_lower, He. reflexivity.
Qed.

End IndexFacts.

(** X9. [get_icons] raises exactly when the base name of some scanned
    [.svg] file has no dash, and what it raises is [IndexError]. *)
Theorem get_icons_raises_iff (w : World) (icons_path result_dir : string)
  (e : Py.exception) :
  get_icons w icons_path result_dir = inl e <->
  e = Py.IndexError /\
  exists fname,
    In fname (Spec.svg_files w icons_path) /\
    Py.contains "-" (Spec.icon_name_of fname) = false.
Proof.
  rewrite <- (forallb_false_ex Spec.has_dash).
  destruct (forallb Spec.has_dash (Spec.svg_files w icons_path)) eqn:E.
  - destruct (get_icons_returns w result_dir _ E) as [icons ->].
    split; [discriminate | intros [_ [=]]].
  - rewrite (get_icons_raises w result_dir _ E).
    split; [intros [= <-]; auto | intros [-> _]; reflexivity].
Qed.

(** X10. When [get_icons] returns, the scanned [.svg] files and the
    discovered records correspond one to one, in order: the record of a
    file carries its base name without the extension, its path relative
    to the result directory and the group of its token; and every
    discovered record is stored in the index under its group. *)
Theorem get_icons_one_record_per_file (w : World)
  (icons_path result_dir : string) (icons : gmap string (list IconDetails)) :
  get_icons w icons_path result_dir = inr icons ->
  exists recs,
    Spec.discovered w icons_path result_dir = inr recs /\
    Forall2 (Spec.record_of w result_dir) (Spec.svg_files w icons_path) recs /\
    forall d, In d recs ->
      exists l, icons !! group d = Some l /\ In d l.
Proof.
  intros H.
  destruct (get_icons_lookup _ _ _ _ H) as (recs & Hrecs & Hlookup).
  exists recs. split; [exact Hrecs|].
  split; [now apply records_Forall2|].
  intros d Hd. rewrite Hlookup.
  assert (Hin : d ∈ filter (fun d' => group d' = group d) recs)
    by (apply list_elem_of_filter; split; [reflexivity | now apply list_elem_of_In]).
  destruct (filter (fun d' => group d' = group d) recs) as [|d0 ds] eqn:E.
  - now apply not_elem_of_nil in Hin.
  - eexists; split; [reflexivity|].
    apply list_elem_of_In. now rewrite (sort_by_name_perm (d0 :: ds)).
Qed.

Lemma get_icons_one_record_per_file_witness :
  get_icons Sample.world_nested "/icons" "/out" = inr Sample.nested_index /\
  exists recs,
    Spec.discovered Sample.world_nested "/icons" "/out" = inr recs /\
    Forall2 (Spec.record_of Sample.world_nested "/out")
      (Spec.svg_files Sample.world_nested "/icons") recs /\
    forall d, In d recs ->
      exists l, Sample.nested_index !! group d = Some l /\ In d l.
Proof.
  assert (H : get_icons Sample.world_nested "/icons" "/out"
              = inr Sample.nested_index) by (vm_compute; reflexivity).
  split; [exact H|].
  exact (get_icons_one_record_per_file Sample.world_nested "/icons" "/out"
           Sample.nested_index H).
Defined.

(** X11. A scan that meets no [.svg] file returns the empty index. *)
Theorem get_icons_no_svg (w : World) (icons_path result_dir : string) :
  Spec.svg_files w icons_path = [] ->
  get_icons w icons_path result_dir = inr ∅.
Proof.
  intros H. rewrite get_icons_spec. unfold Spec.discovered. rewrite H.
  cbn. now rewrite fmap_empty.
Qed.

Lemma get_icons_no_svg_witness :
  Spec.svg_files (Sample.world ["readme.txt"; "logo.png"]) "/icons" = [] /\
  get_icons (Sample.world ["readme.txt"; "logo.png"]) "/icons" "/out" = inr ∅.
Proof.
  split; [reflexivity|].
  apply (get_icons_no_svg (Sample.world ["readme.txt"; "logo.png"])
           "/icons" "/out").
  reflexivity.
Defined.

(** X12. The keys of a returned index are among small, medium, large,
    cover, notification and unknown. *)
Theorem get_icons_keys_closed (w : World) (icons_path result_dir : string)
  (icons : gmap string (list IconDetails)) (g : string) :
  get_icons w icons_path result_dir = inr icons ->
  is_Some (icons !! g) ->
  In g Spec.all_groups.
Proof.
  intros H [l Hl].
  destruct (get_icons_lookup _ _ _ _ H) as (recs & Hrecs & Hlookup).
  rewrite Hlookup in Hl.
  destruct (filter (fun d => group d = g) recs) as [|d ds] eqn:E;
    [discriminate|].
  assert (Hin : d ∈ filter (fun d => group d = g) recs)
    by (rewrite E; apply list_elem_of_here).
  apply list_elem_of_filter in Hin as [<- Hd].
  apply records_Forall2 in Hrecs.
  apply list_elem_of_In in Hd.
  clear -Hrecs Hd. induction Hrecs as [|f d' fs ds' Hr _ IH]; [destruct Hd|].
  destruct Hd as [->|Hd]; [|now apply IH].
  destruct Hr as (_ & _ & tok & _ & ->). apply category_all_groups.
Qed.

Lemma get_icons_keys_closed_witness :
  get_icons Sample.world_nested "/icons" "/out" = inr Sample.nested_index /\
  is_Some (Sample.nested_index !! "medium") /\
  In "medium" Spec.all_groups.
Proof.
  assert (H : get_icons Sample.world_nested "/icons" "/out"
              = inr Sample.nested_index) by (vm_compute; reflexivity).
  assert (H' : is_Some (Sample.nested_index !! "medium"))
    by (vm_compute; eauto).
  split; [exact H|]. split; [exact H'|].
  exact (get_icons_keys_closed Sample.world_nested "/icons" "/out"
           Sample.nested_index "medium" H H').
Defined.

(** X13. The name and the group of a record depend on the directory
    entry only, not on the directory it was found in: both are computed
    from the base name of the entry, and a base name without a dash
    raises [IndexError] wherever the file is. *)
Theorem icon_details_by_filename (w : World)
  (root result_dir filename : string) :
  Py.contains "/" filename = false ->
  icon_details w (PosixPath.join root filename) result_dir =
  match Spec.token (Spec.icon_name_of filename) with
  | Some tok =>
      inr {| name := Spec.icon_name_of filename;
             group := Spec.category tok;
             relpath := os_relpath w (PosixPath.join root filename) result_dir |}
  | None => inl Py.IndexError
  end.
Proof.
  intros H. rewrite icon_details_spec. now rewrite (icon_name_of_join _ _ H).
Qed.

Lemma icon_details_by_filename_witness :
  Py.contains "/" "app-lock.svg" = false /\
  icon_details Sample.world_nested
    (PosixPath.join "/icons/dark" "app-lock.svg") "/out" =
  match Spec.token (Spec.icon_name_of "app-lock.svg") with
  | Some tok =>
      inr {| name := Spec.icon_name_of "app-lock.svg";
             group := Spec.category tok;
             relpath := os_relpath Sample.world_nested
                          (PosixPath.join "/icons/dark" "app-lock.svg") "/out" |}
  | None => inl Py.IndexError
  end.
Proof.
  split; [reflexivity|].
  apply (icon_details_by_filename Sample.world_nested "/icons/dark" "/out"
           "app-lock.svg").
  reflexivity.
Defined.

(** X14. The extension test does not look at case: a directory entry
    [stem] followed by [.svg] in any mix of upper and lower case is taken
    as an icon file, and its icon name is [stem]. *)
Theorem is_svg_any_case (root stem ext : string) :
  Py.lower ext = ".svg" ->
  Py.contains "/" (stem ++ ext) = false ->
  Spec.is_svg (PosixPath.join root (stem ++ ext)) = true /\
  Spec.icon_name_of (PosixPath.join root (stem ++ ext)) = stem.
Proof.
  intros Hext Hslash. split.
  - unfold Spec.is_svg.
    destruct (join_suffix root _ Hslash) as [->|[a ->]].
    + rewrite lower_app, Hext. apply endswith_app.
    + replace (a ++ String PosixPath.sep (stem ++ ext))
        with ((a ++ String PosixPath.sep stem) ++ ext)
        by (rewrite app_assoc_str; reflexivity).
      rewrite lower_app, Hext. apply endswith_app.
  - rewrite (icon_name_of_join _ _ Hslash). unfold Spec.icon_name_of.
    rewrite (basename_no_sep _ Hslash).
    destruct (svg_extension _ Hext) as (e & -> & He).
    now rewrite (rsplit1_app _ _ _ He).
Qed.

Lemma is_svg_any_case_witness :
  Py.lower ".SvG" = ".svg" /\
  Py.contains "/" ("Logo-L" ++ ".SvG") = false /\
  Spec.is_svg (PosixPath.join "/icons" ("Logo-L" ++ ".SvG")) = true /\
  Spec.icon_name_of (PosixPath.join "/icons" ("Logo-L" ++ ".SvG")) = "Logo-L".
Proof.
  split; [reflexivity|]. split; [reflexivity|].
  apply (is_svg_any_case "/icons" "Logo-L" ".SvG"); reflexivity.
Defined.

(** ** More on the command-line driver *)

(** X15. When both paths exist, the index and the template are built,
    and creating the directory, opening the file, rendering and writing
    all succeed, the process creates the directory of the result, opens
    the result, writes the text rendered from the index, the selected
    groups and the row size 3, logs where the result is, and ends with
    status 0, in this order and with nothing else. *)
Theorem main_success (w : World) (argv : Argv)
  (flags_icons flags_template text : string)
  (idx : gmap string (list IconDetails)) (tpl : Template) :
  let flags := parse_args w argv in
  fs_path_exists w (arg_icons argv) = Some flags_icons ->
  fs_path_exists w (arg_template argv) = Some flags_template ->
  get_icons w flags_icons (PosixPath.dirname (result flags)) = inr idx ->
  get_template w (PosixPath.basename flags_template)
    (PosixPath.dirname flags_template) = inr tpl ->
  makedirs w (PosixPath.dirname (result flags)) = None ->
  open_wt w (result flags) = None ->
  tpl idx (get_groups flags) 3 = inr text ->
  write_text w (result flags) text = None ->
  run_main w argv =
  ([MakeDirs (PosixPath.dirname (result flags));
    OpenForWriting (result flags);
    WriteText (result flags) text;
    Log INFO ("Result file stored at: " ++ result flags) None],
   Exit 0%Z).
Proof.
  intros flags Hi Ht Hidx Htpl Hmk Hop Hrender Hwr. subst flags.
  unfold run_main, main. revert Hidx Hmk Hop Hrender Hwr.
  generalize (get_groups (parse_args w argv)).
  unfold parse_args. cbn [icons template result].
  intros groups Hidx Hmk Hop Hrender Hwr.
  rewrite Hi, Ht, Hidx, Htpl. cbn.
  rewrite Hmk. cbn. rewrite Hop. cbn.
  unfold DEFAULT_ELEMENTS_PER_ROW. rewrite Hrender. cbn.
  rewrite Hwr. reflexivity.
Qed.

Lemma main_success_witness :
  let w := Sample.world Sample.scenario_files in
  let argv := Sample.argv "/icons" "/tpl/preview.html" in
  exists flags_icons flags_template text idx tpl,
    fs_path_exists w (arg_icons argv) = Some flags_icons /\
    fs_path_exists w (arg_template argv) = Some flags_template /\
    get_icons w flags_icons (PosixPath.dirname (result (parse_args w argv)))
      = inr idx /\
    get_template w (PosixPath.basename flags_template)
      (PosixPath.dirname flags_template) = inr tpl /\
    makedirs w (PosixPath.dirname (result (parse_args w argv))) = None /\
    open_wt w (result (parse_args w argv)) = None /\
    tpl idx (get_groups (parse_args w argv)) 3 = inr text /\
    write_text w (result (parse_args w argv)) text = None /\
    run_main w argv =
    ([MakeDirs (PosixPath.dirname (result (parse_args w argv)));
      OpenForWriting (result (parse_args w argv));
      WriteText (result (parse_args w argv)) text;
      Log INFO ("Result file stored at: " ++ result (parse_args w argv)) None],
     Exit 0%Z).
Proof.
  intros w argv.
  destruct (get_icons w "/icons" "/out") as [e|idx] eqn:Hidx;
    [vm_compute in Hidx; discriminate|].
  destruct (Sample.preview
              {| filter_split_by := split_by;
                 filter_icon_group_order := icon_group_order |}
              idx (get_groups (parse_args w argv)) 3) as [e|text] eqn:Hr.
  { vm_compute in Hidx. injection Hidx as <-. vm_compute in Hr. discriminate. }
  exists "/icons", "/tpl/preview.html", text, idx,
    (Sample.preview {| filter_split_by := split_by;
                       filter_icon_group_order := icon_group_order |}).
  do 8 (split; [first [reflexivity | exact Hidx | exact Hr]|]).
  apply (main_success w argv "/icons" "/tpl/preview.html" text idx
           (Sample.preview {| filter_split_by := split_by;
                              filter_icon_group_order := icon_group_order |}));
    first [reflexivity | exact Hidx | exact Hr].
Defined.

(** X16. When rendering raises, the result file has already been opened
    for writing: the process has created the directory and opened the
    file, writes nothing, logs the exception and ends with status 1. *)
Theorem main_render_failure (w : World) (argv : Argv)
  (flags_icons flags_template : string)
  (idx : gmap string (list IconDetails)) (tpl : Template) (exc : Py.exception) :
  let flags := parse_args w argv in
  fs_path_exists w (arg_icons argv) = Some flags_icons ->
  fs_path_exists w (arg_template argv) = Some flags_template ->
  get_icons w flags_icons (PosixPath.dirname (result flags)) = inr idx ->
  get_template w (PosixPath.basename flags_template)
    (PosixPath.dirname flags_template) = inr tpl ->
  makedirs w (PosixPath.dirname (result flags)) = None ->
  open_wt w (result flags) = None ->
  tpl idx (get_groups flags) 3 = inl exc ->
  run_main w argv =
  ([MakeDirs (PosixPath.dirname (result flags));
    OpenForWriting (result flags);
    Log ERROR "Error: %s" (Some exc)],
   Exit 1%Z).
Proof.
  intros flags Hi Ht Hidx Htpl Hmk Hop Hrender. subst flags.
  unfold run_main, main. revert Hidx Hmk Hop Hrender.
  generalize (get_groups (parse_args w argv)).
  unfold parse_args. cbn [icons template result].
  intros groups Hidx Hmk Hop Hrender.
  rewrite Hi, Ht, Hidx, Htpl. cbn.
  rewrite Hmk. cbn. rewrite Hop. cbn.
  unfold DEFAULT_ELEMENTS_PER_ROW. rewrite Hrender. reflexivity.
Qed.

Lemma main_render_failure_witness :
  let w := Sample.world_render_fails Sample.scenario_files in
  let argv := Sample.argv "/icons" "/tpl/preview.html" in
  exists idx,
    fs_path_exists w (arg_icons argv) = Some "/icons" /\
    fs_path_exists w (arg_template argv) = Some "/tpl/preview.html" /\
    get_icons w "/icons" (PosixPath.dirname (result (parse_args w argv)))
      = inr idx /\
    get_template w (PosixPath.basename "/tpl/preview.html")
      (PosixPath.dirname "/tpl/preview.html")
      = inr (fun _ _ _ => Py.raise (Py.TemplateError "UndefinedError")) /\
    makedirs w (PosixPath.dirname (result (parse_args w argv))) = None /\
    open_wt w (result (parse_args w argv)) = None /\
    Py.raise (A := string) (Py.TemplateError "UndefinedError")
      = inl (Py.TemplateError "UndefinedError") /\
    run_main w argv =
    ([MakeDirs (PosixPath.dirname (result (parse_args w argv)));
      OpenForWriting (result (parse_args w argv));
      Log ERROR "Error: %s" (Some (Py.TemplateError "UndefinedError"))],
     Exit 1%Z).
Proof.
  intros w argv.
  destruct (get_icons w "/icons" "/out") as [e|idx] eqn:Hidx;
    [vm_compute in Hidx; discriminate|].
  exists idx.
  do 7 (split; [first [reflexivity | exact Hidx]|]).
  apply (main_render_failure w argv "/icons" "/tpl/preview.html" idx
           (fun _ _ _ => Py.raise (Py.TemplateError "UndefinedError"))
           (Py.TemplateError "UndefinedError"));
    first [reflexivity | exact Hidx].
Defined.

(** X17. The process ends with an unhandled exception only when both
    paths exist and indexing or template loading raised it, and it has
    then done nothing: no log, no directory, no file. *)
Theorem main_unhandled_before_try (w : World) (argv : Argv)
  (t : list event) (e : Py.exception) :
  run_main w argv = (t, UnhandledException e) ->
  t = [] /\
  exists flags_icons flags_template,
    fs_path_exists w (arg_icons argv) = Some flags_icons /\
    fs_path_exists w (arg_template argv) = Some flags_template /\
    (get_icons w flags_icons (PosixPath.dirname (fs_path w (arg_result argv)))
       = inl e \/
     get_template w (PosixPath.basename flags_template)
       (PosixPath.dirname flags_template) = inl e).
Proof.
  unfold run_main, main, parse_args. cbn [icons template result].
  destruct (fs_path_exists w (arg_icons argv)) as [pi|]; [|discriminate].
  destruct (fs_path_exists w (arg_template argv)) as [pt|]; [|discriminate].
  destruct (get_icons w pi _) as [e1|idx] eqn:Hidx.
  { cbn. intros [= <- <-]. split; [reflexivity|]. exists pi, pt. auto. }
  destruct (get_template w _ _) as [e2|tpl] eqn:Htpl.
  { cbn. intros [= <- <-]. split; [reflexivity|]. exists pi, pt. auto. }
  cbn.
  destruct (makedirs w _); cbn; [discriminate|].
  destruct (open_wt w _); cbn; [discriminate|].
  destruct (tpl idx _ _); cbn; [discriminate|].
  destruct (write_text w _ _); cbn; discriminate.
Qed.

Lemma main_unhandled_before_try_witness :
  run_main (Sample.world Sample.scenario_files)
    (Sample.argv "/icons" "/tpl/broken.html")
  = ([], UnhandledException (Py.TemplateError "TemplateSyntaxError")) /\
  [] = @nil event /\
  exists flags_icons flags_template,
    fs_path_exists (Sample.world Sample.scenario_files)
      (arg_icons (Sample.argv "/icons" "/tpl/broken.html")) = Some flags_icons /\
    fs_path_exists (Sample.world Sample.scenario_files)
      (arg_template (Sample.argv "/icons" "/tpl/broken.html"))
      = Some flags_template /\
    (get_icons (Sample.world Sample.scenario_files) flags_icons
       (PosixPath.dirname (fs_path (Sample.world Sample.scenario_files)
          (arg_result (Sample.argv "/icons" "/tpl/broken.html"))))
       = inl (Py.TemplateError "TemplateSyntaxError") \/
     get_template (Sample.world Sample.scenario_files)
       (PosixPath.basename flags_template)
       (PosixPath.dirname flags_template)
       = inl (Py.TemplateError "TemplateSyntaxError")).
Proof.
  assert (H : run_main (Sample.world Sample.scenario_files)
                (Sample.argv "/icons" "/tpl/broken.html")
              = ([], UnhandledException (Py.TemplateError "TemplateSyntaxError")))
    by (vm_compute; reflexivity).
  split; [exact H|].
  exact (main_unhandled_before_try (Sample.world Sample.scenario_files)
           (Sample.argv "/icons" "/tpl/broken.html") []
           (Py.TemplateError "TemplateSyntaxError") H).
Defined.


